(** * Chapter02/mybuffer.cpp: the rule-of-five [Buffer] class

    A shallow embedding of [class Buffer] and of the part of the C++
    abstract machine its special member functions run on: a store of
    objects addressed by identity (so that [this] and [other] may alias),
    and a free store of float arrays served by [new float[n]] and
    [delete[] p]. *)

From Stdlib Require Import Floats.SpecFloat.
From stdpp Require Import base option list gmap.

(** ** Values *)

(** A [float] is an IEEE-754 value; the class only stores and copies them. *)
Definition float : Type := spec_float.

(** The literals of [main]: [1.0f], [2.0f], [3.0f] (24-bit significands). *)
Definition f1 : float := S754_finite false 8388608 (-23).
Definition f2 : float := S754_finite false 8388608 (-22).
Definition f3 : float := S754_finite false 12582912 (-22).

(** An allocation is named by its rank in the order of allocation. *)
Abbreviation loc := nat.

(** [float*]: null, or a position [off] inside (or one past the end of)
    the array allocated as [l]. *)
Inductive pointer : Type :=
  | nullptr
  | Ptr (l : loc) (off : nat).

#[global] Instance pointer_eq_dec : EqDecision pointer.
Proof. solve_decision. Defined.

(** One [float] of storage: [None] is an indeterminate value, which is what
    [new float[n]] hands out. *)
Abbreviation cell := (option float).

(** Identity of a [Buffer] object (the storage [this] points to). *)
Abbreviation oid := nat.

(** [class Buffer]: its two private members, [size_t size_] and
    [float* ptr_]. *)
Record Buffer : Type := mkBuffer { size_ : nat; ptr_ : pointer }.

#[global] Instance Buffer_eq_dec : EqDecision Buffer.
Proof. solve_decision. Defined.

(** ** Machine state *)

(** [objs]: the living [Buffer] objects.
    [blocks]: every array ever allocated, in allocation order; [Some a] is a
    live array, [None] one that was released by [delete[]].  A released
    name is never handed out again, so a dangling pointer stays
    recognisable.
    [room]: how many more floats the free store can serve before
    [new] throws [std::bad_alloc]. *)
Record state : Type := mkState {
  objs : gmap nat Buffer;
  blocks : list (option (list cell));
  room : nat
}.

(** How a computation ends: normally, by an exception in flight
    ([std::bad_alloc], the only one here) with the state at the point of
    the throw, or with undefined behaviour. *)
Inductive outcome (A : Type) : Type :=
  | Ok (a : A) (s : state)
  | Throw (s : state)
  | Undefined.
Arguments Ok {A} a s.
Arguments Throw {A} s.
Arguments Undefined {A}.

Definition M (A : Type) : Type := state → outcome A.

Definition ret {A} (a : A) : M A := λ s, Ok a s.

Definition bind {A B} (m : M A) (k : A → M B) : M B := λ s,
  match m s with
  | Ok a s' => k a s'
  | Throw s' => Throw s'
  | Undefined => Undefined
  end.

Declare Scope cpp_scope.
Delimit Scope cpp_scope with cpp.
Notation "x <- c1 ;; c2" := (bind c1 (λ x, c2))
  (at level 100, c1 at next level, right associativity) : cpp_scope.
Notation "c1 ;; c2" := (bind c1 (λ _, c2))
  (at level 100, right associativity) : cpp_scope.
Open Scope cpp_scope.

(** ** The free store *)

Definition set_blocks (bl : list (option (list cell))) (r : nat) (s : state)
  : state := mkState (objs s) bl r.

(** [new float[n]]: a fresh array of [n] indeterminate floats, also for
    [n = 0] (a non-null pointer to an array of no elements); throws when
    the free store is exhausted. *)
Definition new_array (n : nat) : M pointer := λ s,
  if decide (n ≤ room s)
  then Ok (Ptr (length (blocks s)) 0)
          (set_blocks (blocks s ++ [Some (replicate n None)]) (room s - n) s)
  else Throw s.

(** [delete[] p]: nothing for the null pointer; releases the array [p]
    was obtained for; anything else (a pointer into the middle of an
    array, an array already released) is undefined. *)
Definition delete_array (p : pointer) : M unit := λ s,
  match p with
  | nullptr => Ok () s
  | Ptr l 0 =>
      match blocks s !! l with
      | Some (Some a) =>
          Ok () (set_blocks (<[l := None]> (blocks s)) (room s + length a) s)
      | _ => Undefined
      end
  | Ptr _ (S _) => Undefined
  end.

(** [*p] as an rvalue. Reading through null, a dangling or past-the-end
    pointer, or reading an indeterminate float is undefined. *)
Definition load (p : pointer) : M float := λ s,
  match p with
  | nullptr => Undefined
  | Ptr l off =>
      match blocks s !! l with
      | Some (Some a) =>
          match a !! off with
          | Some (Some v) => Ok v s
          | _ => Undefined
          end
      | _ => Undefined
      end
  end.

(** [*p = v]. *)
Definition store (p : pointer) (v : float) : M unit := λ s,
  match p with
  | nullptr => Undefined
  | Ptr l off =>
      match blocks s !! l with
      | Some (Some a) =>
          if decide (off < length a)
          then Ok () (set_blocks (<[l := Some (<[off := Some v]> a)]> (blocks s))
                                 (room s) s)
          else Undefined
      | _ => Undefined
      end
  end.

(** [++p]. *)
Definition incr (p : pointer) : pointer :=
  match p with
  | nullptr => nullptr
  | Ptr l off => Ptr l (S off)
  end.

(** [p + n]: defined for [nullptr + 0] and inside a live array up to one
    past its end. *)
Definition ptr_add (p : pointer) (n : nat) : M pointer := λ s,
  match p with
  | nullptr => if decide (n = 0) then Ok nullptr s else Undefined
  | Ptr l off =>
      match blocks s !! l with
      | Some (Some a) =>
          if decide (off + n ≤ length a) then Ok (Ptr l (off + n)) s
          else Undefined
      | _ => Undefined
      end
  end.

(** The number of [++first] steps after which [first == last]. *)
Definition distance (first last : pointer) : option nat :=
  match first, last with
  | nullptr, nullptr => Some 0
  | Ptr l i, Ptr l' j =>
      if decide (l = l' ∧ i ≤ j) then Some (j - i) else None
  | _, _ => None
  end.

(** The loop of [std::copy]:
    [for (; first != last; ++first, ++d_first) *d_first = *first;]
    unrolled [n] times. *)
Fixpoint copy_loop (n : nat) (first d_first : pointer) : M pointer :=
  match n with
  | 0 => ret d_first
  | S k =>
      v <- load first ;;
      store d_first v ;;
      copy_loop k (incr first) (incr d_first)
  end.

(** [std::copy(first, last, d_first)] between float arrays. *)
Definition std_copy (first last d_first : pointer) : M pointer :=
  match distance first last with
  | Some n => copy_loop n first d_first
  | None => λ _, Undefined
  end.

(** [std::copy(values.begin(), values.end(), d_first)] out of an
    initializer list. *)
Fixpoint copy_list (values : list float) (d_first : pointer) : M pointer :=
  match values with
  | [] => ret d_first
  | v :: rest => store d_first v ;; copy_list rest (incr d_first)
  end.

(** ** Member access *)

Definition set_objs (o : gmap nat Buffer) (s : state) : state :=
  mkState o (blocks s) (room s).

(** Reading a member of a living object. *)
Definition get (x : oid) : M Buffer := λ s,
  match objs s !! x with
  | Some b => Ok b s
  | None => Undefined
  end.

Definition get_size (x : oid) : M nat := b <- get x ;; ret (size_ b).
Definition get_ptr (x : oid) : M pointer := b <- get x ;; ret (ptr_ b).

(** [x.size_ = n] and [x.ptr_ = p] on a living object. *)
Definition set_size (x : oid) (n : nat) : M unit :=
  b <- get x ;;
  λ s, Ok () (set_objs (<[x := mkBuffer n (ptr_ b)]> (objs s)) s).

Definition set_ptr (x : oid) (p : pointer) : M unit :=
  b <- get x ;;
  λ s, Ok () (set_objs (<[x := mkBuffer (size_ b) p]> (objs s)) s).

(** Start of lifetime: the members get their initial values. *)
Definition init (x : oid) (b : Buffer) : M unit := λ s,
  Ok () (set_objs (<[x := b]> (objs s)) s).

(** End of lifetime. *)
Definition end_lifetime (x : oid) : M unit := λ s,
  Ok () (set_objs (delete x (objs s)) s).

(** A constructor that exits by an exception leaves no object behind. *)
Definition constructing (x : oid) (body : M unit) : M unit := λ s,
  match body s with
  | Throw s' => Throw (set_objs (delete x (objs s')) s')
  | r => r
  end.

(** ** The members of [Buffer] *)

(** [Buffer(const std::initializer_list<float>& values)] *)
Definition Buffer_ctor (this : oid) (values : list float) : M unit :=
  constructing this (
    p <- new_array (length values) ;;
    init this (mkBuffer (length values) p) ;;
    p <- get_ptr this ;;
    copy_list values p ;;
    ret ()).

(** [std::copy(other.ptr_, other.ptr_ + size_, ptr_);], the statement
    shared by the copy constructor and copy assignment. *)
Definition copy_from (this other : oid) : M unit :=
  first <- get_ptr other ;;
  n <- get_size this ;;
  last <- ptr_add first n ;;
  d <- get_ptr this ;;
  std_copy first last d ;;
  ret ().

(** [Buffer(const Buffer& other)]: [size_(other.size_)], [ptr_] from its
    default member initializer, then the body. *)
Definition Buffer_copy_ctor (this other : oid) : M unit :=
  constructing this (
    n <- get_size other ;;
    init this (mkBuffer n nullptr) ;;
    n <- get_size this ;;
    p <- new_array n ;;
    set_ptr this p ;;
    copy_from this other).

(** [Buffer& operator=(const Buffer& other)] *)
Definition Buffer_copy_assign (this other : oid) : M unit :=
  p <- get_ptr this ;;
  delete_array p ;;
  n <- get_size other ;;
  p <- new_array n ;;
  set_ptr this p ;;
  n <- get_size other ;;
  set_size this n ;;
  copy_from this other.

(** The two statements of [~Buffer()]. *)
Definition Buffer_dtor_body (this : oid) : M unit :=
  p <- get_ptr this ;;
  delete_array p ;;
  set_ptr this nullptr.

(** [~Buffer()], after which the object is gone. *)
Definition Buffer_dtor (this : oid) : M unit :=
  Buffer_dtor_body this ;;
  end_lifetime this.

(** The statements that empty the source of a move:
    [other.ptr_ = nullptr; other.size_ = 0;] *)
Definition relinquish (other : oid) : M unit :=
  set_ptr other nullptr ;;
  set_size other 0.

(** [Buffer(Buffer&& other) noexcept] *)
Definition Buffer_move_ctor (this other : oid) : M unit :=
  n <- get_size other ;;
  p <- get_ptr other ;;
  init this (mkBuffer n p) ;;
  relinquish other.

(** The statements of move assignment that take the source's members:
    [ptr_ = other.ptr_; size_ = other.size_;] *)
Definition take_over (this other : oid) : M unit :=
  p <- get_ptr other ;;
  set_ptr this p ;;
  n <- get_size other ;;
  set_size this n.

(** [Buffer& operator=(Buffer&& other) noexcept] *)
Definition Buffer_move_assign (this other : oid) : M unit :=
  take_over this other ;;
  relinquish other.

(** [void swap(Buffer& other) noexcept]; each [std::swap(a, b)] is
    [tmp = a; a = b; b = tmp]. *)
Definition Buffer_swap (this other : oid) : M unit :=
  tmp <- get_size this ;;
  n <- get_size other ;;
  set_size this n ;;
  set_size other tmp ;;
  tmp <- get_ptr this ;;
  p <- get_ptr other ;;
  set_ptr this p ;;
  set_ptr other tmp.

(** The loop of [printBuffer]:
    [for (size_t i = 0; i < size_; ++i) std::cout << ptr_[i] << " ";]
    with [n] iterations left; the floats written, in order. *)
Fixpoint print_elems (p : pointer) (i n : nat) : M (list float) :=
  match n with
  | 0 => ret []
  | S k =>
      q <- ptr_add p i ;;
      v <- load q ;;
      rest <- print_elems p (S i) k ;;
      ret (v :: rest)
  end.

(** What [printBuffer] writes after the header: the size, the address of
    the float array, the elements. *)
Record report : Type := mkReport {
  r_size : nat;
  r_addr : pointer;
  r_elems : list float
}.

(** [void printBuffer(const char* name) const] *)
Definition printBuffer (this : oid) : M report :=
  n <- get_size this ;;
  p <- get_ptr this ;;
  n' <- get_size this ;;
  q <- get_ptr this ;;
  vs <- print_elems q 0 n' ;;
  ret (mkReport n p vs).

(** ** Observations used in the statements *)

(** The elements of [b] read in order through its data pointer, when
    reading them is defined. *)
Definition elements (b : Buffer) (s : state) : option (list float) :=
  match print_elems (ptr_ b) 0 (size_ b) s with
  | Ok vs _ => Some vs
  | _ => None
  end.

(** [p[i] = v], a write through the data pointer. *)
Definition poke (p : pointer) (i : nat) (v : float) : M unit :=
  q <- ptr_add p i ;;
  store q v.

(** The array [l] is live. *)
Definition live (l : loc) (s : state) : Prop :=
  ∃ a, blocks s !! l = Some (Some a).

(** [b] owns a live array holding exactly [vs]. *)
Definition owns_array (s : state) (b : Buffer) (vs : list float) : Prop :=
  ∃ l, ptr_ b = Ptr l 0 ∧ size_ b = length vs
       ∧ blocks s !! l = Some (Some (Some <$> vs)).

(** [b] is in the empty state: size 0 and no allocation. *)
Definition empty_state (b : Buffer) : Prop :=
  size_ b = 0 ∧ ptr_ b = nullptr.

(** [b] holds the element sequence [vs]: it owns an array of exactly
    these floats, or it is empty and so is [vs]. *)
Definition holds (s : state) (b : Buffer) (vs : list float) : Prop :=
  owns_array s b vs ∨ (empty_state b ∧ vs = []).

(** The arrays once [delete[] p] has run. *)
Definition release (p : pointer) (bl : list (option (list cell)))
  : list (option (list cell)) :=
  match p with
  | Ptr l 0 => <[l := None]> bl
  | _ => bl
  end.

(** Two buffers do not share an allocation. *)
Definition separate (a b : Buffer) : Prop :=
  ptr_ a = ptr_ b → ptr_ a = nullptr.

(** The invariant of the data model: size 0 implies no allocation. *)
Definition size_zero_null (b : Buffer) : Prop :=
  size_ b = 0 → ptr_ b = nullptr.

(** The state before [main]: no object, nothing allocated. *)
Definition start (r : nat) : state := mkState ∅ [] r.

(** ** The rest of the file: [printLocation] and [main] *)

(** [void printLocation(...) const]: writes the call site (file, line,
    function) to [std::cout]; it reads no member and changes nothing. *)
Definition printLocation (this : oid) : M unit :=
  get this ;;
  ret ().

(** [int main()]: [b1] is object 1, [b2] object 2. The result is the exit
    code with what the four calls of [printBuffer] wrote, in order; on
    [return] the locals are destroyed in reverse order of construction. *)
Definition main : M (Z * list report) :=
  Buffer_ctor 1 [f1; f2; f3] ;;
  r1 <- printBuffer 1 ;;
  r2 <- printBuffer 1 ;;
  printLocation 1 ;;
  Buffer_copy_ctor 2 1 ;;
  r3 <- printBuffer 2 ;;
  r4 <- printBuffer 1 ;;
  Buffer_dtor 2 ;;
  Buffer_dtor 1 ;;
  ret (0%Z, [r1; r2; r3; r4]).

(** ** Clients of the class *)

(** A call of a public member of [Buffer] on objects named by identity. *)
Inductive call : Type :=
  | Construct (this : oid) (values : list float)
  | CopyConstruct (this other : oid)
  | CopyAssign (this other : oid)
  | Destroy (this : oid)
  | MoveConstruct (this other : oid)
  | MoveAssign (this other : oid)
  | Swap (this other : oid)
  | Print (this : oid).

Definition run (c : call) : M unit :=
  match c with
  | Construct this values => Buffer_ctor this values
  | CopyConstruct this other => Buffer_copy_ctor this other
  | CopyAssign this other => Buffer_copy_assign this other
  | Destroy this => Buffer_dtor this
  | MoveConstruct this other => Buffer_move_ctor this other
  | MoveAssign this other => Buffer_move_assign this other
  | Swap this other => Buffer_swap this other
  | Print this => printBuffer this ;; ret ()
  end.

(** A client: calls run one after the other. *)
Fixpoint run_all (cs : list call) : M unit :=
  match cs with
  | [] => ret ()
  | c :: rest => run c ;; run_all rest
  end.

(** [b] is empty or owns a live array of exactly [size_ b] floats. *)
Definition well_formed (s : state) (b : Buffer) : Prop :=
  ∃ vs, holds s b vs.

(** Every living buffer is well formed and no two of them share an
    array. *)
Definition store_ok (s : state) : Prop :=
  (∀ x b, objs s !! x = Some b → well_formed s b)
  ∧ (∀ x y bx by', x ≠ y → objs s !! x = Some bx → objs s !! y = Some by' →
       separate bx by').

(** Every live array belongs to a living buffer. *)
Definition no_leak (s : state) : Prop :=
  ∀ l a, blocks s !! l = Some (Some a) →
    ∃ x b, objs s !! x = Some b ∧ ptr_ b = Ptr l 0.

(** Calls that keep the free store free of leaks: a constructor runs on
    storage that holds no living object, and move assignment on a
    destination that owns nothing. *)
Definition leak_safe (s : state) (c : call) : Prop :=
  match c with
  | Construct this _ | CopyConstruct this _ | MoveConstruct this _ =>
      objs s !! this = None
  | MoveAssign this _ =>
      ∀ d, objs s !! this = Some d → ptr_ d = nullptr
  | _ => True
  end.

(** A client all of whose calls are leak safe in the state they run in. *)
Fixpoint leak_safe_all (cs : list call) (s : state) : Prop :=
  match cs with
  | [] => True
  | c :: rest =>
      leak_safe s c ∧ ∀ s', run c s = Ok () s' → leak_safe_all rest s'
  end.

(** ** The free store: basic facts *)

Section free_store.
Implicit Types (s : state) (l : loc) (a : list cell) (vs : list float).

(** Writing [v] at [off] and then [vs] behind it is writing [v :: vs]
    at [off]. *)
Lemma splice_step a off v vs :
  off < length a →
  take (S off) (<[off := Some v]> a) ++ (Some <$> vs)
    ++ drop (S off + length vs) (<[off := Some v]> a)
  = take off a ++ (Some <$> v :: vs) ++ drop (off + length (v :: vs)) a.
Proof.
  intros Hlt. rewrite (take_S_r _ _ (Some v)).
  - rewrite take_insert_ge by lia. rewrite drop_insert_lt by lia.
    rewrite <- app_assoc. simpl.
    by replace (off + S (length vs)) with (S (off + length vs)) by lia.
  - by apply list_lookup_insert_eq.
Qed.

Lemma splice_nil a off :
  take off a ++ (Some <$> []) ++ drop (off + 0) a = a.
Proof. simpl. by rewrite Nat.add_0_r, take_drop. Qed.

Lemma copy_list_spec vs : ∀ l off a s,
  blocks s !! l = Some (Some a) →
  off + length vs ≤ length a →
  copy_list vs (Ptr l off) s
  = Ok (Ptr l (off + length vs))
       (set_blocks
          (<[l := Some (take off a ++ (Some <$> vs) ++ drop (off + length vs) a)]>
             (blocks s))
          (room s) s).
Proof.
  induction vs as [|v vs IH]; intros l off a [o bl r] Hl Hlen.
  - cbn [copy_list length]. rewrite splice_nil. unfold ret, set_blocks.
    cbn in *. rewrite Nat.add_0_r. by rewrite list_insert_id.
  - cbn [copy_list]. unfold bind at 1. unfold store. cbn in Hl, Hlen.
    cbn [blocks]. rewrite Hl.
    destruct (decide (off < length a)) as [Hlt|]; [|lia].
    cbn [incr]. erewrite IH; cycle 1.
    + cbn. apply list_lookup_insert_eq. by eapply lookup_lt_Some.
    + rewrite length_insert. lia.
    + unfold set_blocks. cbn [blocks room objs].
      rewrite list_insert_insert_eq, splice_step by done.
      do 2 f_equal. cbn. lia.
Qed.

Lemma copy_loop_spec vs : ∀ ls i src ld j dst s,
  ls ≠ ld →
  blocks s !! ls = Some (Some src) →
  blocks s !! ld = Some (Some dst) →
  (∀ k v, vs !! k = Some v → src !! (i + k) = Some (Some v)) →
  j + length vs ≤ length dst →
  copy_loop (length vs) (Ptr ls i) (Ptr ld j) s
  = Ok (Ptr ld (j + length vs))
       (set_blocks
          (<[ld := Some (take j dst ++ (Some <$> vs) ++ drop (j + length vs) dst)]>
             (blocks s))
          (room s) s).
Proof.
  induction vs as [|v vs IH]; intros ls i src ld j dst [o bl r] Hne Hs Hd Hsrc Hlen.
  - cbn [copy_loop length]. rewrite splice_nil. unfold ret, set_blocks.
    cbn in *. rewrite Nat.add_0_r. by rewrite list_insert_id.
  - cbn [copy_loop length]. unfold bind at 1. unfold load.
    cbn in Hs, Hd, Hlen. cbn [blocks]. rewrite Hs.
    specialize (Hsrc 0 v eq_refl) as Hi. rewrite Nat.add_0_r in Hi.
    rewrite Hi. unfold bind at 1. unfold store. cbn [blocks]. rewrite Hd.
    destruct (decide (j < length dst)) as [Hlt|]; [|lia].
    cbn [incr]. erewrite (IH ls (S i) src ld (S j)); cycle 1.
    + done.
    + cbn. by rewrite list_lookup_insert_ne.
    + cbn. apply list_lookup_insert_eq. by eapply lookup_lt_Some.
    + intros k w Hk. replace (S i + k) with (i + S k) by lia. by apply Hsrc.
    + rewrite length_insert. lia.
    + unfold set_blocks. cbn [blocks room objs].
      rewrite list_insert_insert_eq, splice_step by done.
      do 2 f_equal. cbn. lia.
Qed.

(** Reading back an array whose cells from [i] on hold [vs]. *)
Lemma print_elems_spec l a s vs : ∀ i,
  blocks s !! l = Some (Some a) →
  (∀ k v, vs !! k = Some v → a !! (i + k) = Some (Some v)) →
  print_elems (Ptr l 0) i (length vs) s = Ok vs s.
Proof.
  induction vs as [|v vs IH]; intros i Hl Ha; [done|].
  cbn [print_elems length]. unfold bind at 1. unfold ptr_add. rewrite Hl.
  specialize (Ha 0 v eq_refl) as Hi. rewrite Nat.add_0_r in Hi.
  apply lookup_lt_Some in Hi as Hlt.
  destruct (decide (0 + i ≤ length a)); [|lia].
  unfold bind at 1. unfold load. rewrite Hl. cbn [Nat.add]. rewrite Hi.
  unfold bind at 1. rewrite IH; [done..|].
  intros k w Hk. replace (S i + k) with (i + S k) by lia. by apply Ha.
Qed.

(** Reading never changes the state. *)
Lemma print_elems_readonly p n : ∀ i s vs s',
  print_elems p i n s = Ok vs s' → s' = s.
Proof.
  induction n as [|n IH]; intros i s vs s'; cbn [print_elems].
  - unfold ret. by intros [= _ ->].
  - unfold bind at 1. unfold ptr_add.
    destruct p as [|l off].
    + destruct (decide (i = 0)); [|done]. by unfold bind, load.
    + destruct (blocks s !! l) as [[a|]|]; [|done..].
      destruct (decide (off + i ≤ length a)); [|done].
      unfold bind at 1. unfold load. rewrite ?H.
      destruct (blocks s !! l) as [[a'|]|]; [|done..].
      destruct (a' !! (off + i)) as [[v|]|]; [|done..].
      unfold bind at 1.
      destruct (print_elems (Ptr l off) (S i) n s) as [r s1| |] eqn:E; [|done..].
      unfold ret. intros [= _ <-]. by eapply IH.
Qed.
End free_store.

(** ** Running the statements of a member function *)

Section running.
Implicit Types (s : state) (x : oid) (b : Buffer).

Lemma bind_Ok {A B} (m : M A) (k : A → M B) s a s' :
  m s = Ok a s' → bind m k s = k a s'.
Proof. unfold bind. by intros ->. Qed.

Lemma bind_Throw {A B} (m : M A) (k : A → M B) s s' :
  m s = Throw s' → bind m k s = Throw s'.
Proof. unfold bind. by intros ->. Qed.

Lemma bind_Undefined {A B} (m : M A) (k : A → M B) s :
  m s = Undefined → bind m k s = Undefined.
Proof. unfold bind. by intros ->. Qed.

Lemma get_size_Ok x b s : objs s !! x = Some b → get_size x s = Ok (size_ b) s.
Proof. unfold get_size, bind, get. by intros ->. Qed.

Lemma get_ptr_Ok x b s : objs s !! x = Some b → get_ptr x s = Ok (ptr_ b) s.
Proof. unfold get_ptr, bind, get. by intros ->. Qed.

Lemma set_size_Ok x b n s :
  objs s !! x = Some b →
  set_size x n s
  = Ok () (mkState (<[x := mkBuffer n (ptr_ b)]> (objs s)) (blocks s) (room s)).
Proof. unfold set_size, bind, get. by intros ->. Qed.

Lemma set_ptr_Ok x b p s :
  objs s !! x = Some b →
  set_ptr x p s
  = Ok () (mkState (<[x := mkBuffer (size_ b) p]> (objs s)) (blocks s) (room s)).
Proof. unfold set_ptr, bind, get. by intros ->. Qed.

Lemma init_Ok x b s :
  init x b s = Ok () (mkState (<[x := b]> (objs s)) (blocks s) (room s)).
Proof. done. Qed.

Lemma end_lifetime_Ok x s :
  end_lifetime x s = Ok () (mkState (delete x (objs s)) (blocks s) (room s)).
Proof. done. Qed.

Lemma new_array_Ok n s :
  n ≤ room s →
  new_array n s
  = Ok (Ptr (length (blocks s)) 0)
       (mkState (objs s) (blocks s ++ [Some (replicate n None)]) (room s - n)).
Proof. unfold new_array. intros H. by rewrite decide_True. Qed.

Lemma new_array_Throw n s : room s < n → new_array n s = Throw s.
Proof. unfold new_array. intros H. rewrite decide_False; [done|lia]. Qed.

Lemma delete_array_null s : delete_array nullptr s = Ok () s.
Proof. done. Qed.

Lemma delete_array_Ok l a s :
  blocks s !! l = Some (Some a) →
  delete_array (Ptr l 0) s
  = Ok () (mkState (objs s) (<[l := None]> (blocks s)) (room s + length a)).
Proof. unfold delete_array. by intros ->. Qed.

Lemma state_eta s : mkState (objs s) (blocks s) (room s) = s.
Proof. by destruct s. Qed.

Lemma Buffer_eta b : mkBuffer (size_ b) (ptr_ b) = b.
Proof. by destruct b. Qed.
End running.

(** Looks up an object in a store built by assignments to members. *)
Ltac lookup :=
  cbn [objs blocks room set_objs set_blocks size_ ptr_];
  rewrite ?lookup_insert_eq;
  repeat (rewrite lookup_insert_ne by done);
  rewrite ?lookup_insert_eq;
  first [eassumption | reflexivity].

(** Runs the first statement of a sequence when it is a member access. *)
Ltac step :=
  erewrite bind_Ok;
  [| first [ eapply get_size_Ok; lookup
           | eapply get_ptr_Ok; lookup
           | eapply set_size_Ok; lookup
           | eapply set_ptr_Ok; lookup
           | apply init_Ok
           | apply delete_array_null ] ];
  cbn [objs blocks room size_ ptr_].

Section members.
Implicit Types (s : state) (b d : Buffer) (vs : list float).

Lemma relinquish_spec other b s :
  objs s !! other = Some b →
  relinquish other s
  = Ok () (mkState (<[other := mkBuffer 0 nullptr]> (objs s))
                   (blocks s) (room s)).
Proof.
  intros Ho. unfold relinquish. step.
  erewrite set_size_Ok by lookup. cbn. by rewrite insert_insert_eq.
Qed.

Lemma take_over_spec this other d b s :
  objs s !! this = Some d →
  objs s !! other = Some b →
  take_over this other s
  = Ok () (mkState (<[this := b]> (objs s)) (blocks s) (room s)).
Proof.
  intros Ht Ho. unfold take_over. do 2 step.
  destruct (decide (this = other)) as [->|Hne].
  - assert (d = b) as -> by congruence.
    step. erewrite set_size_Ok by lookup. cbn.
    rewrite insert_insert_eq. by destruct b.
  - step. erewrite set_size_Ok by lookup. cbn.
    rewrite insert_insert_eq. by destruct b.
Qed.

Lemma move_ctor_spec this other b s :
  objs s !! other = Some b →
  this ≠ other →
  Buffer_move_ctor this other s
  = Ok () (mkState (<[other := mkBuffer 0 nullptr]> (<[this := b]> (objs s)))
                   (blocks s) (room s)).
Proof.
  intros Ho Hne. unfold Buffer_move_ctor. do 3 step.
  erewrite relinquish_spec by lookup. cbn. by rewrite Buffer_eta.
Qed.

Lemma move_assign_spec this other d b s :
  objs s !! this = Some d →
  objs s !! other = Some b →
  Buffer_move_assign this other s
  = Ok () (mkState (<[other := mkBuffer 0 nullptr]> (<[this := b]> (objs s)))
                   (blocks s) (room s)).
Proof.
  intros Ht Ho. unfold Buffer_move_assign.
  erewrite bind_Ok by (by eapply take_over_spec).
  destruct (decide (this = other)) as [->|Hne].
  - by erewrite relinquish_spec by lookup.
  - by erewrite relinquish_spec by lookup.
Qed.

Lemma swap_spec this other a b s :
  objs s !! this = Some a →
  objs s !! other = Some b →
  Buffer_swap this other s
  = Ok () (mkState (<[other := a]> (<[this := b]> (objs s)))
                   (blocks s) (room s)).
Proof.
  intros Ht Ho. unfold Buffer_swap.
  destruct (decide (this = other)) as [->|Hne].
  - assert (a = b) as -> by congruence.
    do 7 step. erewrite set_ptr_Ok by lookup. cbn.
    rewrite !insert_insert_eq. by rewrite Buffer_eta.
  - do 7 step. erewrite set_ptr_Ok by lookup. cbn.
    rewrite !Buffer_eta. do 2 f_equal. apply map_eq. intros k.
    destruct (decide (other = k)) as [->|]; [by rewrite !lookup_insert_eq|].
    rewrite !(lookup_insert_ne _ other) by done.
    destruct (decide (this = k)) as [->|]; [by rewrite !lookup_insert_eq|].
    by rewrite !lookup_insert_ne.
Qed.
End members.

Section owning.
Implicit Types (s : state) (b d : Buffer) (vs : list float).

Lemma elements_holds s b vs : holds s b vs → elements b s = Some vs.
Proof.
  unfold elements. intros [(l & -> & -> & Hl)|[[-> ->] ->]]; [|done].
  rewrite (print_elems_spec l (Some <$> vs)); [done..|].
  intros k v Hk. cbn. by rewrite list_lookup_fmap, Hk.
Qed.

Lemma printBuffer_holds this s b vs :
  objs s !! this = Some b →
  holds s b vs →
  printBuffer this s = Ok (mkReport (size_ b) (ptr_ b) vs) s.
Proof.
  intros Ht Hb. unfold printBuffer. do 4 step.
  apply elements_holds in Hb. unfold elements in Hb.
  destruct (print_elems (ptr_ b) 0 (size_ b) s) as [ws s'| |] eqn:E; [|done..].
  apply print_elems_readonly in E as Hs. subst s'.
  injection Hb as ->. by erewrite bind_Ok by done.
Qed.

(** What is held does not depend on the objects, nor on the other
    arrays. *)
Lemma holds_frame s s' b vs :
  holds s b vs →
  (∀ l a, ptr_ b = Ptr l 0 → blocks s !! l = Some (Some a) →
          blocks s' !! l = Some (Some a)) →
  holds s' b vs.
Proof.
  intros [(l & Hp & Hn & Hl)|He] Hf; [left|by right].
  exists l. eauto.
Qed.

Lemma constructing_Ok this body s s' :
  body s = Ok () s' → constructing this body s = Ok () s'.
Proof. unfold constructing. by intros ->. Qed.

Lemma fresh_fill (bl : list (option (list cell))) x y :
  <[length bl := x]> (bl ++ [y]) = bl ++ [x].
Proof. by rewrite <- (Nat.add_0_r (length bl)), insert_app_r. Qed.

Lemma fresh_lookup (bl : list (option (list cell))) y :
  (bl ++ [y]) !! length bl = Some y.
Proof. by apply list_lookup_middle. Qed.

Lemma splice_all vs :
  take 0 (replicate (length vs) (@None float)) ++ (Some <$> vs)
    ++ drop (0 + length vs) (replicate (length vs) None)
  = Some <$> vs.
Proof.
  cbn. rewrite drop_ge; [by rewrite app_nil_r|]. by rewrite length_replicate.
Qed.

Lemma ctor_spec this vs s :
  length vs ≤ room s →
  Buffer_ctor this vs s
  = Ok () (mkState
             (<[this := mkBuffer (length vs) (Ptr (length (blocks s)) 0)]> (objs s))
             (blocks s ++ [Some (Some <$> vs)])
             (room s - length vs)).
Proof.
  intros Hroom. unfold Buffer_ctor. apply constructing_Ok.
  erewrite bind_Ok by (by apply new_array_Ok). do 2 step.
  erewrite bind_Ok; cycle 1.
  { apply copy_list_spec; [apply fresh_lookup|].
    by rewrite length_replicate. }
  unfold ret, set_blocks. cbn. by rewrite splice_all, fresh_fill.
Qed.

(** The copy statement, run on a destination array fresh from [new]. *)
Lemma copy_from_spec this other b t vs bl s :
  objs s !! other = Some b →
  objs s !! this = Some t →
  size_ t = length vs →
  ptr_ t = Ptr (length bl) 0 →
  blocks s = bl ++ [Some (replicate (length vs) None)] →
  (∃ l, ptr_ b = Ptr l 0 ∧ bl !! l = Some (Some (Some <$> vs)))
  ∨ (ptr_ b = nullptr ∧ vs = []) →
  copy_from this other s
  = Ok () (mkState (objs s) (bl ++ [Some (Some <$> vs)]) (room s)).
Proof.
  intros Ho Ht Hn Hp Hbl Hb. unfold copy_from. do 2 step. rewrite Hn.
  destruct Hb as [(l & Hl & Hsrc)|[Hl ->]]; rewrite Hl.
  - apply lookup_lt_Some in Hsrc as Hlt.
    erewrite bind_Ok; cycle 1.
    { unfold ptr_add. rewrite Hbl, lookup_app_l, Hsrc by done.
      rewrite decide_True; [done|]. by rewrite length_fmap. }
    step. rewrite Hp. unfold std_copy, distance.
    rewrite decide_True by (split; [done|lia]).
    rewrite Nat.sub_0_r. erewrite bind_Ok; cycle 1.
    { eapply (copy_loop_spec vs l 0 (Some <$> vs) (length bl) 0).
      - lia.
      - by rewrite Hbl, lookup_app_l.
      - rewrite Hbl. apply fresh_lookup.
      - intros k v Hk. cbn. by rewrite list_lookup_fmap, Hk.
      - by rewrite length_replicate. }
    unfold ret, set_blocks. cbn. by rewrite Hbl, splice_all, fresh_fill.
  - erewrite bind_Ok by done. step. cbn. unfold ret.
    rewrite <- (state_eta s) at 1. by rewrite Hbl.
Qed.

Lemma copy_ctor_spec this other b vs s :
  objs s !! other = Some b →
  holds s b vs →
  this ≠ other →
  size_ b ≤ room s →
  Buffer_copy_ctor this other s
  = Ok () (mkState
             (<[this := mkBuffer (size_ b) (Ptr (length (blocks s)) 0)]> (objs s))
             (blocks s ++ [Some (Some <$> vs)])
             (room s - size_ b)).
Proof.
  intros Ho Hb Hne Hroom. unfold Buffer_copy_ctor. apply constructing_Ok.
  do 3 step. erewrite bind_Ok by (by apply new_array_Ok).
  step. rewrite insert_insert_eq.
  assert (size_ b = length vs) as Hn.
  { by destruct Hb as [(l & _ & Hn & _)|[[Hn _] ->]]. }
  erewrite (copy_from_spec this other b _ vs (blocks s)); first done.
  - lookup.
  - lookup.
  - done.
  - done.
  - cbn. by rewrite Hn.
  - destruct Hb as [(l & Hp & _ & Hl)|[[_ Hp] ->]]; eauto.
Qed.

Lemma dtor_empty_spec this b s :
  objs s !! this = Some b →
  ptr_ b = nullptr →
  Buffer_dtor this s
  = Ok () (mkState (delete this (objs s)) (blocks s) (room s)).
Proof.
  intros Ht Hp. unfold Buffer_dtor, Buffer_dtor_body.
  erewrite bind_Ok; cycle 1.
  { step. rewrite Hp. step. by eapply set_ptr_Ok. }
  rewrite end_lifetime_Ok. cbn. by rewrite delete_insert_eq.
Qed.

Lemma dtor_owning_spec this b l a s :
  objs s !! this = Some b →
  ptr_ b = Ptr l 0 →
  blocks s !! l = Some (Some a) →
  Buffer_dtor this s
  = Ok () (mkState (delete this (objs s)) (<[l := None]> (blocks s))
                   (room s + length a)).
Proof.
  intros Ht Hp Hl. unfold Buffer_dtor, Buffer_dtor_body.
  erewrite bind_Ok; cycle 1.
  { step. rewrite Hp. erewrite bind_Ok by (by apply delete_array_Ok).
    by eapply set_ptr_Ok. }
  rewrite end_lifetime_Ok. cbn. by rewrite delete_insert_eq.
Qed.

Lemma holds_size s b vs : holds s b vs → size_ b = length vs.
Proof. by intros [(l & _ & Hn & _)|[[Hn _] ->]]. Qed.

Lemma release_length p (bl : list (option (list cell))) :
  length (release p bl) = length bl.
Proof. destruct p as [|l [|off]]; [done| |done]. apply length_insert. Qed.

Lemma delete_holds s d ws :
  holds s d ws →
  delete_array (ptr_ d) s
  = Ok () (mkState (objs s) (release (ptr_ d) (blocks s)) (room s + size_ d)).
Proof.
  intros [(l & -> & -> & Hl)|[[-> ->] ->]].
  - erewrite delete_array_Ok by done. by rewrite length_fmap.
  - cbn. by rewrite Nat.add_0_r, state_eta.
Qed.

(** What survives the release of another buffer's array. *)
Lemma holds_release s d b vs o r :
  holds s b vs →
  separate d b →
  holds (mkState o (release (ptr_ d) (blocks s)) r) b vs.
Proof.
  intros Hb Hsep. eapply holds_frame; [done|]. cbn.
  intros l a Hp Hl. destruct (ptr_ d) as [|ld [|off]] eqn:Hd; [done| |done].
  cbn. rewrite list_lookup_insert_ne; [done|].
  intros ->. unfold separate in Hsep.
  rewrite Hp, Hd in Hsep. by specialize (Hsep eq_refl).
Qed.

Lemma copy_assign_spec this other d ws b vs s :
  objs s !! this = Some d →
  holds s d ws →
  objs s !! other = Some b →
  holds s b vs →
  this ≠ other →
  separate d b →
  size_ b ≤ room s + size_ d →
  Buffer_copy_assign this other s
  = Ok () (mkState
             (<[this := mkBuffer (size_ b) (Ptr (length (blocks s)) 0)]> (objs s))
             (release (ptr_ d) (blocks s) ++ [Some (Some <$> vs)])
             (room s + size_ d - size_ b)).
Proof.
  intros Ht Hd Ho Hb Hne Hsep Hroom. unfold Buffer_copy_assign.
  step. erewrite bind_Ok by (by eapply delete_holds).
  step. erewrite bind_Ok by (by apply new_array_Ok).
  do 3 step. rewrite insert_insert_eq.
  apply holds_size in Hb as Hn.
  erewrite (copy_from_spec this other b _ vs (release (ptr_ d) (blocks s))).
  - by rewrite release_length.
  - lookup.
  - lookup.
  - done.
  - cbn. by rewrite release_length.
  - cbn. by rewrite Hn.
  - eapply (holds_release _ _ _ _ (objs s) (room s)) in Hb; [|done].
    destruct Hb as [(l & Hp & _ & Hl)|[[_ Hp] ->]]; eauto.
Qed.
End owning.

Section observing.
Implicit Types (s : state) (b d : Buffer) (vs : list float).

(** What is read back depends on the arrays only. *)
Lemma elements_blocks b s s' :
  blocks s = blocks s' → elements b s = elements b s'.
Proof.
  unfold elements. generalize (ptr_ b) as p, (size_ b) as n, 0 as i.
  intros p n. induction n as [|n IH]; intros i Hbl; [done|].
  cbn [print_elems]. unfold bind, ptr_add, load. rewrite <- Hbl.
  destruct p as [|l off].
  - by destruct (decide (i = 0)).
  - destruct (blocks s !! l) as [[a|]|] eqn:Hl; [|done..].
    destruct (decide (off + i ≤ length a)); [|done].
    rewrite <- Hbl, Hl.
    destruct (a !! (off + i)) as [[v|]|]; [|done..].
    specialize (IH (S i) Hbl). unfold ret.
    destruct (print_elems (Ptr l off) (S i) n s),
      (print_elems (Ptr l off) (S i) n s'); congruence.
Qed.

Lemma dtor_spec this b vs s :
  objs s !! this = Some b →
  holds s b vs →
  Buffer_dtor this s
  = Ok () (mkState (delete this (objs s)) (release (ptr_ b) (blocks s))
                   (room s + size_ b)).
Proof.
  intros Ht [(l & Hp & Hn & Hl)|[[Hn Hp] ->]].
  - erewrite dtor_owning_spec by done. by rewrite Hp, Hn, length_fmap.
  - erewrite dtor_empty_spec by done. by rewrite Hp, Hn, Nat.add_0_r.
Qed.

(** [ptr_[i] = v] changes element [i] of the buffer written through,
    and no other buffer. *)
Lemma poke_holds s b vs i v :
  holds s b vs →
  i < size_ b →
  ∃ s', poke (ptr_ b) i v s = Ok () s'
        ∧ objs s' = objs s
        ∧ holds s' b (<[i := v]> vs)
        ∧ ∀ b' ws, holds s b' ws → ptr_ b' ≠ ptr_ b → holds s' b' ws.
Proof.
  intros [(l & Hp & Hn & Hl)|[[Hn _] _]] Hi; [|lia].
  apply lookup_lt_Some in Hl as Hlt.
  eexists. rewrite Hp. unfold poke.
  erewrite bind_Ok; cycle 1.
  { unfold ptr_add. rewrite Hl, decide_True; [done|].
    rewrite length_fmap. lia. }
  unfold store. rewrite Hl, decide_True by (rewrite length_fmap; lia).
  split; [done|]. split; [done|]. split.
  - left. exists l. cbn. rewrite list_lookup_insert_eq by done.
    by rewrite length_insert, list_fmap_insert.
  - intros b' ws Hb' Hne. eapply holds_frame; [done|]. cbn.
    intros l' a Hp' Hl'. rewrite list_lookup_insert_ne; [done|].
    intros ->. congruence.
Qed.
End observing.

(** * The properties of the specification *)

(** [Buffer b1{1.0f, 2.0f, 3.0f}; b1.printBuffer();] of [main]. *)
Example main_b1 :
  (Buffer_ctor 1 [f1; f2; f3] ;; printBuffer 1) (start 8)
  = Ok (mkReport 3 (Ptr 0 0) [f1; f2; f3])
       (mkState {[1 := mkBuffer 3 (Ptr 0 0)]}
                [Some [Some f1; Some f2; Some f3]] 5).
Proof. vm_compute. reflexivity. Qed.

(** C1. Construction round trip: for every sequence [values], the empty
    one included, and as long as the free store can serve it,
    constructing a [Buffer] from [values] gives a buffer of size
    [length values] whose elements, read back in order through its data
    pointer (as [printBuffer] does), are exactly [values]. *)
Theorem construction_round_trip (this : oid) (values : list float) (s : state) :
  length values ≤ room s →
  ∃ s' b,
    Buffer_ctor this values s = Ok () s'
    ∧ objs s' !! this = Some b
    ∧ size_ b = length values
    ∧ elements b s' = Some values
    ∧ printBuffer this s' = Ok (mkReport (length values) (ptr_ b) values) s'.
Proof.
  intros Hroom. do 2 eexists. split; [by apply ctor_spec|].
  assert (holds
            (mkState
               (<[this := mkBuffer (length values) (Ptr (length (blocks s)) 0)]> (objs s))
               (blocks s ++ [Some (Some <$> values)]) (room s - length values))
            (mkBuffer (length values) (Ptr (length (blocks s)) 0)) values) as Hb.
  { left. eexists. split; [done|]. split; [done|]. apply fresh_lookup. }
  split; [by lookup|]. split; [done|]. split; [by apply elements_holds|].
  apply (printBuffer_holds this _
           (mkBuffer (length values) (Ptr (length (blocks s)) 0)) values); [lookup|done].
Qed.

Lemma construction_round_trip_witness :
  length [f1; f2; f3] ≤ room (start 8)
  ∧ ∃ s' b,
      Buffer_ctor 1 [f1; f2; f3] (start 8) = Ok () s'
      ∧ objs s' !! 1 = Some b
      ∧ size_ b = 3
      ∧ elements b s' = Some [f1; f2; f3]
      ∧ printBuffer 1 s' = Ok (mkReport 3 (ptr_ b) [f1; f2; f3]) s'.
Proof.
  split; [cbn; lia|].
  apply (construction_round_trip 1 [f1; f2; f3] (start 8)). cbn. lia.
Defined.

(** C2. Deep-copy independence: copy construction from a buffer [B]
    holding [vs] gives (the free store permitting) a buffer [B2] that
    holds [vs] in an array allocated by the copy, distinct from that of
    [B]; writing an element of one, or destroying one, leaves the elements
    of the other as they were. *)
Theorem deep_copy_independence
    (this other : oid) (B : Buffer) (vs : list float) (s : state) :
  objs s !! other = Some B →
  holds s B vs →
  this ≠ other →
  size_ B ≤ room s →
  ∃ s' B2,
    Buffer_copy_ctor this other s = Ok () s'
    ∧ objs s' !! this = Some B2
    ∧ objs s' !! other = Some B
    ∧ elements B2 s' = Some vs
    ∧ elements B s' = Some vs
    ∧ (∃ l2, ptr_ B2 = Ptr l2 0 ∧ live l2 s' ∧ ¬ live l2 s)
    ∧ ptr_ B2 ≠ ptr_ B
    ∧ (∀ i v, i < size_ B2 →
         ∃ s'', poke (ptr_ B2) i v s' = Ok () s''
                ∧ elements B2 s'' = Some (<[i := v]> vs)
                ∧ elements B s'' = Some vs)
    ∧ (∀ i v, i < size_ B →
         ∃ s'', poke (ptr_ B) i v s' = Ok () s''
                ∧ elements B s'' = Some (<[i := v]> vs)
                ∧ elements B2 s'' = Some vs)
    ∧ (∃ s'', Buffer_dtor this s' = Ok () s'' ∧ elements B s'' = Some vs)
    ∧ (∃ s'', Buffer_dtor other s' = Ok () s'' ∧ elements B2 s'' = Some vs).
Proof.
  intros Ho HB Hne Hroom.
  set (B2 := mkBuffer (size_ B) (Ptr (length (blocks s)) 0)).
  set (s' := mkState (<[this := B2]> (objs s))
                     (blocks s ++ [Some (Some <$> vs)]) (room s - size_ B)).
  assert (holds s' B2 vs) as HB2.
  { left. exists (length (blocks s)). split; [done|].
    split; [by apply holds_size in HB|]. apply fresh_lookup. }
  assert (holds s' B vs) as HB'.
  { eapply holds_frame; [done|]. intros l a _ Hl. cbn.
    by apply lookup_app_l_Some. }
  assert (ptr_ B2 ≠ ptr_ B) as Hptr.
  { cbn. destruct HB as [(l & Hp & _ & Hl)|[[_ Hp] _]]; rewrite Hp; [|done].
    apply lookup_lt_Some in Hl. intros [= E]. lia. }
  assert (objs s' !! this = Some B2) as Ht' by (unfold s'; lookup).
  assert (objs s' !! other = Some B) as Ho' by (unfold s'; lookup).
  exists s', B2. split; [by eapply copy_ctor_spec|].
  split; [done|]. split; [done|].
  split; [by apply elements_holds|]. split; [by apply elements_holds|].
  split.
  { exists (length (blocks s)). split; [done|]. split.
    - eexists. apply fresh_lookup.
    - intros [a Ha]. apply lookup_lt_Some in Ha. lia. }
  split; [done|]. split.
  { intros i v Hi.
    destruct (poke_holds s' B2 vs i v HB2 Hi) as (s'' & Hpoke & _ & H2 & Hfr).
    exists s''. split; [done|]. split; [by apply elements_holds|].
    apply elements_holds. apply Hfr; [done|]. by intros E. }
  split.
  { intros i v Hi.
    destruct (poke_holds s' B vs i v HB' Hi) as (s'' & Hpoke & _ & H1 & Hfr).
    exists s''. split; [done|]. split; [by apply elements_holds|].
    apply elements_holds. by apply Hfr. }
  split.
  - eexists. split; [by eapply dtor_spec|].
    apply elements_holds. apply holds_release; [done|]. by intros E.
  - eexists. split; [by eapply dtor_spec|].
    apply elements_holds. apply holds_release; [done|].
    intros E. by destruct Hptr.
Qed.

Lemma deep_copy_independence_witness :
  let s := mkState {[1 := mkBuffer 3 (Ptr 0 0)]}
                   [Some [Some f1; Some f2; Some f3]] 3 in
  ∃ s' B2,
    Buffer_copy_ctor 2 1 s = Ok () s'
    ∧ objs s' !! 2 = Some B2
    ∧ elements B2 s' = Some [f1; f2; f3]
    ∧ elements (mkBuffer 3 (Ptr 0 0)) s' = Some [f1; f2; f3].
Proof.
  intros s.
  destruct (deep_copy_independence 2 1 (mkBuffer 3 (Ptr 0 0)) [f1; f2; f3] s)
    as (s' & B2 & H1 & H2 & _ & H4 & H5 & _).
  - reflexivity.
  - left. exists 0. repeat split; reflexivity.
  - lia.
  - cbn. lia.
  - exists s', B2. repeat split; assumption.
Defined.

(** C3. Moving [B] into a distinct destination, by move construction or
    by move assignment, gives the destination the size, the data pointer
    and hence the element sequence [B] had, and leaves the source with
    size 0 and a null data pointer; no array is touched. *)
Theorem move_transfers (this other : oid) (B : Buffer) (s : state) :
  objs s !! other = Some B →
  this ≠ other →
  (∃ s', Buffer_move_ctor this other s = Ok () s'
         ∧ objs s' !! this = Some B
         ∧ elements B s' = elements B s
         ∧ objs s' !! other = Some (mkBuffer 0 nullptr)
         ∧ blocks s' = blocks s)
  ∧ (∀ D, objs s !! this = Some D →
       ∃ s', Buffer_move_assign this other s = Ok () s'
             ∧ objs s' !! this = Some B
             ∧ elements B s' = elements B s
             ∧ objs s' !! other = Some (mkBuffer 0 nullptr)
             ∧ blocks s' = blocks s).
Proof.
  intros Ho Hne. split; [|intros D Ht]; eexists.
  - split; [by apply move_ctor_spec|].
    split; [by lookup|]. split; [by apply elements_blocks|].
    split; [by lookup|done].
  - split; [by eapply move_assign_spec|].
    split; [by lookup|]. split; [by apply elements_blocks|].
    split; [by lookup|done].
Qed.

Lemma move_transfers_witness :
  let s := mkState {[1 := mkBuffer 3 (Ptr 0 0)]}
                   [Some [Some f1; Some f2; Some f3]] 0 in
  ∃ s', Buffer_move_ctor 2 1 s = Ok () s'
        ∧ objs s' !! 2 = Some (mkBuffer 3 (Ptr 0 0))
        ∧ elements (mkBuffer 3 (Ptr 0 0)) s' = Some [f1; f2; f3]
        ∧ objs s' !! 1 = Some (mkBuffer 0 nullptr).
Proof.
  intros s.
  destruct (move_transfers 2 1 (mkBuffer 3 (Ptr 0 0)) s)
    as [(s' & H1 & H2 & H3 & H4 & _) _].
  - reflexivity.
  - lia.
  - exists s'. repeat split; assumption.
Defined.

(** C4. Self copy assignment [b = b] on the buffer of [main]: the operator
    releases the array of [b], allocates a fresh one and copies that
    fresh array onto itself, so the elements are gone and the copy reads
    indeterminate floats. The property ([b] unchanged) does not hold. *)
Theorem self_copy_assign_loses_elements :
  ∃ s, Buffer_ctor 1 [f1; f2; f3] (start 8) = Ok () s
       ∧ elements (mkBuffer 3 (Ptr 0 0)) s = Some [f1; f2; f3]
       ∧ objs s !! 1 = Some (mkBuffer 3 (Ptr 0 0))
       ∧ Buffer_copy_assign 1 1 s = Undefined.
Proof. eexists. repeat split; vm_compute; reflexivity. Qed.

(** The same for every buffer that owns a non-empty array. *)
Lemma self_copy_assign_undefined (this : oid) (b : Buffer) vs (s : state) :
  objs s !! this = Some b →
  owns_array s b vs →
  vs ≠ [] →
  Buffer_copy_assign this this s = Undefined.
Proof.
  intros Ht Hb Hvs. assert (holds s b vs) as Hh by by left.
  apply holds_size in Hh as Hn.
  unfold Buffer_copy_assign.
  step. erewrite bind_Ok by (by eapply delete_holds).
  step. erewrite bind_Ok by (apply new_array_Ok; cbn; lia).
  do 3 step. rewrite !insert_insert_eq. unfold copy_from. do 2 step.
  rewrite release_length.
  erewrite bind_Ok; cycle 1.
  { unfold ptr_add. cbn. rewrite <- (release_length (ptr_ b)) at 1.
    rewrite fresh_lookup, decide_True; [done|]. by rewrite length_replicate. }
  step. unfold std_copy, distance.
  rewrite decide_True by (split; [done|lia]).
  rewrite Nat.sub_0_r, Hn. destruct vs as [|v vs]; [done|].
  apply bind_Undefined. cbn [length copy_loop]. apply bind_Undefined.
  unfold load. cbn. rewrite <- (release_length (ptr_ b)) at 1.
  by rewrite fresh_lookup.
Qed.

(** C5. Copy assignment [D = S] with an allocation that fails: [D] holds
    one float, [S] two, and the free store has nothing left. [delete[]]
    has already run when [new] throws, so [D] is left with its old size
    and a pointer to a released array. The property ([D] unchanged, its
    array not released) does not hold. *)
Theorem copy_assign_throw_releases_destination :
  ∃ s s',
    (Buffer_ctor 1 [f1] ;; Buffer_ctor 2 [f2; f3]) (start 3) = Ok () s
    ∧ objs s !! 1 = Some (mkBuffer 1 (Ptr 0 0))
    ∧ elements (mkBuffer 1 (Ptr 0 0)) s = Some [f1]
    ∧ Buffer_copy_assign 1 2 s = Throw s'
    ∧ objs s' !! 1 = Some (mkBuffer 1 (Ptr 0 0))
    ∧ blocks s' !! 0 = Some None
    ∧ elements (mkBuffer 1 (Ptr 0 0)) s' = None
    ∧ Buffer_dtor 1 s' = Undefined.
Proof. do 2 eexists. repeat split; vm_compute; reflexivity. Qed.

(** The same for every destination that owns an array, whenever the free
    store cannot serve the source's size even after that array has been
    given back: the exception leaves [D]'s members as they were and its
    array released. *)
Lemma copy_assign_throw_general
    (this other : oid) (D B : Buffer) (ws : list float) (s : state) :
  objs s !! this = Some D →
  owns_array s D ws →
  objs s !! other = Some B →
  room s + size_ D < size_ B →
  ∃ l, ptr_ D = Ptr l 0
       ∧ Buffer_copy_assign this other s
         = Throw (mkState (objs s) (<[l := None]> (blocks s)) (room s + size_ D)).
Proof.
  intros Ht HD Ho Hroom. assert (holds s D ws) as Hh by by left.
  destruct HD as (l & Hp & _ & _). exists l. split; [done|].
  unfold Buffer_copy_assign.
  step. erewrite bind_Ok by (by eapply delete_holds).
  step. rewrite Hp. cbn [release].
  apply bind_Throw. by apply new_array_Throw.
Qed.

(** C6. [swap] exchanges the members of any two buffers: afterwards each
    object has the size and data pointer, hence the elements, the other
    had; the call always returns, and the free store is as before (no
    array allocated, released or written). *)
Theorem swap_exchanges (this other : oid) (A B : Buffer) (s : state) :
  objs s !! this = Some A →
  objs s !! other = Some B →
  ∃ s',
    Buffer_swap this other s = Ok () s'
    ∧ objs s' !! this = Some B
    ∧ objs s' !! other = Some A
    ∧ elements B s' = elements B s
    ∧ elements A s' = elements A s
    ∧ blocks s' = blocks s
    ∧ room s' = room s.
Proof.
  intros Ht Ho. eexists. split; [by apply swap_spec|].
  split.
  { destruct (decide (this = other)) as [->|Hne]; [|by lookup].
    cbn. rewrite lookup_insert_eq. congruence. }
  split; [by lookup|].
  split; [by apply elements_blocks|]. split; [by apply elements_blocks|done].
Qed.

Lemma swap_exchanges_witness :
  let s := mkState {[1 := mkBuffer 1 (Ptr 0 0); 2 := mkBuffer 2 (Ptr 1 0)]}
                   [Some [Some f1]; Some [Some f2; Some f3]] 0 in
  ∃ s',
    Buffer_swap 1 2 s = Ok () s'
    ∧ objs s' !! 1 = Some (mkBuffer 2 (Ptr 1 0))
    ∧ objs s' !! 2 = Some (mkBuffer 1 (Ptr 0 0))
    ∧ elements (mkBuffer 2 (Ptr 1 0)) s' = Some [f2; f3]
    ∧ elements (mkBuffer 1 (Ptr 0 0)) s' = Some [f1].
Proof.
  intros s.
  destruct (swap_exchanges 1 2 (mkBuffer 1 (Ptr 0 0)) (mkBuffer 2 (Ptr 1 0)) s)
    as (s' & H1 & H2 & H3 & H4 & H5 & _).
  - reflexivity.
  - reflexivity.
  - exists s'. repeat split; assumption.
Defined.

(** C7, as stated, fails: constructing from the empty sequence gives a
    buffer of size 0 whose data pointer is not null, [new float[0]]
    being a pointer to an array of no elements. *)
Lemma ctor_empty_not_null :
  ∃ s' b,
    Buffer_ctor 1 [] (start 0) = Ok () s'
    ∧ objs s' !! 1 = Some b
    ∧ ¬ size_zero_null b.
Proof.
  exists (mkState {[1 := mkBuffer 0 (Ptr 0 0)]} [Some []] 0),
         (mkBuffer 0 (Ptr 0 0)).
  split; [by vm_compute|]. split; [by vm_compute|].
  intros H. by specialize (H eq_refl).
Qed.

(** C7, amended. Every buffer produced by construction from [values], by
    copy construction or by copy assignment from a buffer holding [vs]
    has a non-null data pointer to a live array of exactly [size_]
    elements, also when the size is 0; so it satisfies "size 0 implies
    null" exactly when its contents are not empty. Move construction and
    move assignment hand the source's members to the destination as they
    are, well formed if the source was, and leave the source with size 0
    and a null pointer. Each operation is taken in every state it can run
    in: construction needs room for the elements only, a copy needs a
    well-formed source other than the destination and room for its
    elements (for assignment, counting what the destination gives back),
    a move needs a living source other than the destination. *)
Theorem produced_buffers_well_formed :
  (∀ (this : oid) (values : list float) (s : state),
     length values ≤ room s →
     ∃ s' b, Buffer_ctor this values s = Ok () s'
             ∧ objs s' !! this = Some b
             ∧ owns_array s' b values
             ∧ (size_zero_null b ↔ values ≠ []))
  ∧ (∀ (this other : oid) (B : Buffer) (vs : list float) (s : state),
       objs s !! other = Some B →
       holds s B vs →
       this ≠ other →
       size_ B ≤ room s →
       ∃ s' b, Buffer_copy_ctor this other s = Ok () s'
               ∧ objs s' !! this = Some b
               ∧ owns_array s' b vs
               ∧ (size_zero_null b ↔ vs ≠ []))
  ∧ (∀ (this other : oid) (D B : Buffer) (ws vs : list float) (s : state),
       objs s !! this = Some D →
       holds s D ws →
       objs s !! other = Some B →
       holds s B vs →
       this ≠ other →
       separate D B →
       size_ B ≤ room s + size_ D →
       ∃ s' b, Buffer_copy_assign this other s = Ok () s'
               ∧ objs s' !! this = Some b
               ∧ owns_array s' b vs
               ∧ (size_zero_null b ↔ vs ≠ []))
  ∧ (∀ (this other : oid) (B : Buffer) (s : state),
       objs s !! other = Some B →
       this ≠ other →
       ∃ s', Buffer_move_ctor this other s = Ok () s'
             ∧ objs s' !! this = Some B
             ∧ (∀ vs, holds s B vs → holds s' B vs)
             ∧ ∃ b, objs s' !! other = Some b
                    ∧ empty_state b ∧ size_zero_null b)
  ∧ (∀ (this other : oid) (D B : Buffer) (s : state),
       objs s !! this = Some D →
       objs s !! other = Some B →
       this ≠ other →
       ∃ s', Buffer_move_assign this other s = Ok () s'
             ∧ objs s' !! this = Some B
             ∧ (∀ vs, holds s B vs → holds s' B vs)
             ∧ ∃ b, objs s' !! other = Some b
                    ∧ empty_state b ∧ size_zero_null b).
Proof.
  assert (∀ n l (xs : list float), n = length xs →
            size_zero_null (mkBuffer n (Ptr l 0)) ↔ xs ≠ []) as Hnz.
  { intros n l xs ->. unfold size_zero_null. cbn. split.
    - intros H ->. by specialize (H eq_refl).
    - intros Hxs E. by destruct xs. }
  split; [|split; [|split; [|split]]].
  - intros this values s Hroom.
    do 2 eexists. split; [by apply ctor_spec|]. split; [by lookup|]. split.
    + eexists. split; [done|]. split; [done|]. apply fresh_lookup.
    + by apply Hnz.
  - intros this other B vs s Ho HB Hne Hroom.
    apply holds_size in HB as Hn.
    do 2 eexists. split; [by eapply copy_ctor_spec|]. split; [by lookup|].
    split.
    + eexists. split; [done|]. split; [done|]. apply fresh_lookup.
    + by apply Hnz.
  - intros this other D B ws vs s Ht HD Ho HB Hne Hsep Hroom.
    apply holds_size in HB as Hn.
    do 2 eexists. split; [by eapply copy_assign_spec|].
    split; [by lookup|]. split.
    + eexists. split; [done|]. split; [done|]. cbn.
      rewrite <- (release_length (ptr_ D)). apply fresh_lookup.
    + by apply Hnz.
  - intros this other B s Ho Hne.
    eexists. split; [by apply move_ctor_spec|]. split; [by lookup|].
    split; [intros vs HB; by eapply holds_frame|].
    eexists. split; [by lookup|]. by split.
  - intros this other D B s Ht Ho Hne.
    eexists. split; [by eapply move_assign_spec|]. split; [by lookup|].
    split; [intros vs HB; by eapply holds_frame|].
    eexists. split; [by lookup|]. by split.
Qed.

(** The five operations where they can first run: construction from the
    empty list in the state before [main] with no room at all, copy and
    move construction from the one buffer of [main], the two assignments
    between two buffers. *)
Lemma produced_buffers_well_formed_witness :
  let s1 := mkState {[1 := mkBuffer 3 (Ptr 0 0)]}
                    [Some [Some f1; Some f2; Some f3]] 3 in
  let s2 := mkState {[1 := mkBuffer 1 (Ptr 0 0); 2 := mkBuffer 2 (Ptr 1 0)]}
                    [Some [Some f1]; Some [Some f2; Some f3]] 1 in
  (∃ s' b, Buffer_ctor 1 [] (start 0) = Ok () s'
           ∧ objs s' !! 1 = Some b ∧ owns_array s' b []
           ∧ ¬ size_zero_null b)
  ∧ (∃ s' b, Buffer_copy_ctor 2 1 s1 = Ok () s'
             ∧ objs s' !! 2 = Some b ∧ owns_array s' b [f1; f2; f3]
             ∧ size_zero_null b)
  ∧ (∃ s' b, Buffer_copy_assign 1 2 s2 = Ok () s'
             ∧ objs s' !! 1 = Some b ∧ owns_array s' b [f2; f3])
  ∧ (∃ s', Buffer_move_ctor 2 1 s1 = Ok () s'
           ∧ objs s' !! 2 = Some (mkBuffer 3 (Ptr 0 0)))
  ∧ (∃ s', Buffer_move_assign 1 2 s2 = Ok () s'
           ∧ objs s' !! 1 = Some (mkBuffer 2 (Ptr 1 0))).
Proof.
  intros s1 s2.
  destruct produced_buffers_well_formed as (Hc & Hcc & Hca & Hmc & Hma).
  split; [|split; [|split; [|split]]].
  - destruct (Hc 1 [] (start 0)) as (s' & b & H1 & H2 & H3 & H4);
      [cbn; lia|].
    exists s', b. repeat (split; [assumption|]).
    intros H. apply H4 in H. by destruct H.
  - destruct (Hcc 2 1 (mkBuffer 3 (Ptr 0 0)) [f1; f2; f3] s1)
      as (s' & b & H1 & H2 & H3 & H4).
    + reflexivity.
    + left. exists 0. repeat split; reflexivity.
    + lia.
    + cbn. lia.
    + exists s', b. repeat (split; [assumption|]). by apply H4.
  - destruct (Hca 1 2 (mkBuffer 1 (Ptr 0 0)) (mkBuffer 2 (Ptr 1 0))
                [f1] [f2; f3] s2) as (s' & b & H1 & H2 & H3 & _).
    + reflexivity.
    + left. exists 0. repeat split; reflexivity.
    + reflexivity.
    + left. exists 1. repeat split; reflexivity.
    + lia.
    + intros [=].
    + cbn. lia.
    + exists s', b. repeat (split; [assumption|]). assumption.
  - destruct (Hmc 2 1 (mkBuffer 3 (Ptr 0 0)) s1) as (s' & H1 & H2 & _).
    + reflexivity.
    + lia.
    + exists s'. split; assumption.
  - destruct (Hma 1 2 (mkBuffer 1 (Ptr 0 0)) (mkBuffer 2 (Ptr 1 0)) s2)
      as (s' & H1 & H2 & _).
    + reflexivity.
    + reflexivity.
    + lia.
    + exists s'. split; assumption.
Defined.

(** C8. Destroying a buffer in the empty state (default-empty or
    moved-from: size 0, null data pointer) is defined, releases nothing
    and writes nothing: the free store is as before, and every other
    buffer keeps its members and its elements, in particular the buffer
    that took over the allocation of a moved-from one. *)
Theorem destroy_empty_safe (this : oid) (b : Buffer) (s : state) :
  objs s !! this = Some b →
  empty_state b →
  ∃ s',
    Buffer_dtor this s = Ok () s'
    ∧ objs s' = delete this (objs s)
    ∧ blocks s' = blocks s
    ∧ room s' = room s
    ∧ ∀ x bx, x ≠ this → objs s !! x = Some bx →
        objs s' !! x = Some bx ∧ elements bx s' = elements bx s.
Proof.
  intros Ht [Hn Hp]. eexists. split; [by eapply dtor_empty_spec|].
  split; [done|]. split; [done|]. split; [done|].
  intros x bx Hx Hbx. split; [|by apply elements_blocks].
  cbn. by rewrite lookup_delete_ne.
Qed.

(** [Buffer b2 = std::move(b1);] followed by the destruction of [b1]. *)
Lemma destroy_empty_safe_witness :
  let s := mkState {[1 := mkBuffer 0 nullptr; 2 := mkBuffer 3 (Ptr 0 0)]}
                   [Some [Some f1; Some f2; Some f3]] 0 in
  Buffer_move_ctor 2 1
    (mkState {[1 := mkBuffer 3 (Ptr 0 0)]} [Some [Some f1; Some f2; Some f3]] 0)
  = Ok () s
  ∧ ∃ s',
      Buffer_dtor 1 s = Ok () s'
      ∧ blocks s' = blocks s
      ∧ objs s' !! 2 = Some (mkBuffer 3 (Ptr 0 0))
      ∧ elements (mkBuffer 3 (Ptr 0 0)) s' = Some [f1; f2; f3].
Proof.
  intros s. split; [by vm_compute|].
  destruct (destroy_empty_safe 1 (mkBuffer 0 nullptr) s)
    as (s' & H1 & _ & H3 & _ & H5).
  - reflexivity.
  - split; reflexivity.
  - destruct (H5 2 (mkBuffer 3 (Ptr 0 0))) as [H6 H7]; [lia|reflexivity|].
    exists s'. repeat split; assumption.
Defined.

(** C9. Move assignment [D = std::move(S)] onto a buffer that owns an
    array: [D] holds one float, [S] another. The operator overwrites
    [D]'s pointer without [delete[]], so the array [D] owned stays live
    while no buffer points to it, and it is still live after both
    buffers are destroyed. The property (the old allocation is released,
    none is leaked) does not hold. *)
Theorem move_assign_leaks_destination :
  ∃ s s' s'',
    (Buffer_ctor 1 [f1] ;; Buffer_ctor 2 [f2]) (start 2) = Ok () s
    ∧ objs s !! 1 = Some (mkBuffer 1 (Ptr 0 0))
    ∧ Buffer_move_assign 1 2 s = Ok () s'
    ∧ objs s' = {[1 := mkBuffer 1 (Ptr 1 0); 2 := mkBuffer 0 nullptr]}
    ∧ blocks s' !! 0 = Some (Some [Some f1])
    ∧ (Buffer_dtor 1 ;; Buffer_dtor 2) s' = Ok () s''
    ∧ objs s'' = ∅
    ∧ blocks s'' = [Some [Some f1]; None].
Proof. do 3 eexists. repeat split; vm_compute; reflexivity. Qed.

(** The same for every destination that owns an array: after move
    assignment from a distinct source that array is still live, with its
    contents, and the destination no longer points to it. *)
Lemma move_assign_keeps_old_array
    (this other : oid) (D B : Buffer) (ws : list float) (s : state) :
  objs s !! this = Some D →
  owns_array s D ws →
  objs s !! other = Some B →
  this ≠ other →
  ∃ s', Buffer_move_assign this other s = Ok () s'
        ∧ owns_array s' D ws
        ∧ room s' = room s
        ∧ objs s' !! this = Some B
        ∧ objs s' !! other = Some (mkBuffer 0 nullptr).
Proof.
  intros Ht HD Ho Hne. eexists. split; [by eapply move_assign_spec|].
  split; [done|]. split; [done|]. split; by lookup.
Qed.

(** C10. Self move assignment [b = std::move(b)]: the first two statements
    assign the members to themselves and change nothing, the last two set
    the pointer to null and the size to 0. So [b] ends in the empty state,
    not unchanged; no array is released, and the destructor run afterwards
    releases nothing either. *)
Theorem self_move_assign_empties (this : oid) (b : Buffer) (s : state) :
  objs s !! this = Some b →
  take_over this this s = Ok () s
  ∧ ∃ s',
      Buffer_move_assign this this s = Ok () s'
      ∧ objs s' !! this = Some (mkBuffer 0 nullptr)
      ∧ blocks s' = blocks s
      ∧ room s' = room s
      ∧ ∃ s'', Buffer_dtor this s' = Ok () s''
               ∧ blocks s'' = blocks s
               ∧ room s'' = room s.
Proof.
  intros Ht. split.
  - erewrite take_over_spec by done. by rewrite insert_id, state_eta.
  - eexists. split; [by eapply move_assign_spec|].
    split; [by lookup|]. split; [done|]. split; [done|].
    eexists. split; [eapply dtor_empty_spec; [lookup|done]|]. done.
Qed.

Lemma self_move_assign_empties_witness :
  let s := mkState {[1 := mkBuffer 3 (Ptr 0 0)]}
                   [Some [Some f1; Some f2; Some f3]] 0 in
  ∃ s',
    Buffer_move_assign 1 1 s = Ok () s'
    ∧ objs s' !! 1 = Some (mkBuffer 0 nullptr)
    ∧ blocks s' = [Some [Some f1; Some f2; Some f3]].
Proof.
  intros s.
  destruct (self_move_assign_empties 1 (mkBuffer 3 (Ptr 0 0)) s)
    as (_ & s' & H1 & H2 & H3 & _).
  - reflexivity.
  - exists s'. repeat split; assumption.
Defined.

(** * Further properties of the members *)

(** ** How each member can end *)

Section outcomes.
Implicit Types (s : state) (b d : Buffer) (vs : list float).

Lemma get_size_None x s : objs s !! x = None → get_size x s = Undefined.
Proof. unfold get_size, bind, get. by intros ->. Qed.

Lemma get_ptr_None x s : objs s !! x = None → get_ptr x s = Undefined.
Proof. unfold get_ptr, bind, get. by intros ->. Qed.

Lemma set_size_None x n s : objs s !! x = None → set_size x n s = Undefined.
Proof. unfold set_size, bind, get. by intros ->. Qed.

Lemma set_ptr_None x p s : objs s !! x = None → set_ptr x p s = Undefined.
Proof. unfold set_ptr, bind, get. by intros ->. Qed.

Lemma constructing_Throw this body s s1 :
  body s = Throw s1 →
  constructing this body s
  = Throw (mkState (delete this (objs s1)) (blocks s1) (room s1)).
Proof. unfold constructing. by intros ->. Qed.

Lemma constructing_Undefined this body s :
  body s = Undefined → constructing this body s = Undefined.
Proof. unfold constructing. by intros ->. Qed.

Lemma holds_nil s b vs : holds s b vs → size_ b = 0 → vs = [].
Proof.
  intros Hb Hn. apply holds_size in Hb. rewrite Hn in Hb.
  by destruct vs.
Qed.

(** A constructor whose allocation fails leaves no object in its
    storage, and the free store as it was. *)
Lemma ctor_throw this vs s :
  room s < length vs →
  Buffer_ctor this vs s
  = Throw (mkState (delete this (objs s)) (blocks s) (room s)).
Proof.
  intros Hroom. unfold Buffer_ctor.
  erewrite constructing_Throw; [done|].
  apply bind_Throw. by apply new_array_Throw.
Qed.

Lemma copy_ctor_throw this other b s :
  objs s !! other = Some b →
  room s < size_ b →
  Buffer_copy_ctor this other s
  = Throw (mkState (delete this (objs s)) (blocks s) (room s)).
Proof.
  intros Ho Hroom. unfold Buffer_copy_ctor.
  erewrite constructing_Throw; cycle 1.
  { do 3 step. apply bind_Throw. by apply new_array_Throw. }
  cbn. by rewrite delete_insert_eq.
Qed.

(** The copy statement with source and destination the same object,
    whose array has just come from [new]. *)
Lemma copy_from_self x t bl s :
  objs s !! x = Some t →
  ptr_ t = Ptr (length bl) 0 →
  blocks s = bl ++ [Some (replicate (size_ t) None)] →
  copy_from x x s = if decide (size_ t = 0) then Ok () s else Undefined.
Proof.
  intros Hx Hp Hbl. unfold copy_from. do 2 step. rewrite Hp.
  erewrite bind_Ok; cycle 1.
  { unfold ptr_add. rewrite Hbl, fresh_lookup, decide_True; [done|].
    by rewrite length_replicate. }
  step. rewrite Hp. unfold std_copy, distance.
  rewrite decide_True by (split; [done|lia]).
  rewrite Nat.sub_0_r. destruct (size_ t) as [|n] eqn:Hn.
  - by rewrite decide_True.
  - rewrite decide_False by done.
    apply bind_Undefined. cbn [copy_loop]. apply bind_Undefined.
    unfold load. by rewrite Hbl, fresh_lookup.
Qed.

Lemma ctor_inv this vs s s' :
  Buffer_ctor this vs s = Ok () s' →
  length vs ≤ room s
  ∧ s' = mkState
           (<[this := mkBuffer (length vs) (Ptr (length (blocks s)) 0)]> (objs s))
           (blocks s ++ [Some (Some <$> vs)])
           (room s - length vs).
Proof.
  destruct (decide (length vs ≤ room s)) as [Hr|Hr].
  - rewrite ctor_spec by done. by intros [= <-].
  - by rewrite ctor_throw by lia.
Qed.

Lemma copy_ctor_inv this other s s' :
  store_ok s →
  Buffer_copy_ctor this other s = Ok () s' →
  ∃ b vs,
    objs s !! other = Some b
    ∧ holds s b vs
    ∧ size_ b ≤ room s
    ∧ s' = mkState
             (<[this := mkBuffer (size_ b) (Ptr (length (blocks s)) 0)]> (objs s))
             (blocks s ++ [Some (Some <$> vs)])
             (room s - size_ b).
Proof.
  intros [Hwf _].
  destruct (objs s !! other) as [b|] eqn:Ho; cycle 1.
  { unfold Buffer_copy_ctor. rewrite constructing_Undefined; [done|].
    apply bind_Undefined. by apply get_size_None. }
  destruct (Hwf _ _ Ho) as [vs Hb].
  destruct (decide (size_ b ≤ room s)) as [Hr|Hr]; cycle 1.
  { by erewrite copy_ctor_throw by (done || lia). }
  destruct (decide (this = other)) as [->|Hne].
  - unfold Buffer_copy_ctor, constructing.
    do 3 step. erewrite bind_Ok by (by apply new_array_Ok).
    step. rewrite !insert_insert_eq.
    erewrite (copy_from_self other _ (blocks s)); [|lookup|done|done].
    cbn [size_]. destruct (decide (size_ b = 0)) as [Hn|]; [|done].
    intros [= <-]. exists b, vs. repeat (split; [done|]).
    rewrite (holds_nil _ _ _ Hb Hn), Hn. done.
  - erewrite copy_ctor_spec by done. intros [= <-]. by exists b, vs.
Qed.

Lemma copy_assign_inv this other s s' :
  store_ok s →
  Buffer_copy_assign this other s = Ok () s' →
  ∃ d b vs,
    objs s !! this = Some d
    ∧ objs s !! other = Some b
    ∧ holds s b vs
    ∧ (this = other → vs = [])
    ∧ size_ b ≤ room s + size_ d
    ∧ s' = mkState
             (<[this := mkBuffer (size_ b) (Ptr (length (blocks s)) 0)]> (objs s))
             (release (ptr_ d) (blocks s) ++ [Some (Some <$> vs)])
             (room s + size_ d - size_ b).
Proof.
  intros [Hwf Hsep].
  destruct (objs s !! this) as [d|] eqn:Ht; cycle 1.
  { unfold Buffer_copy_assign. rewrite bind_Undefined; [done|].
    by apply get_ptr_None. }
  destruct (Hwf _ _ Ht) as [ws Hd].
  destruct (objs s !! other) as [b|] eqn:Ho; cycle 1.
  { unfold Buffer_copy_assign. step.
    erewrite bind_Ok by (by eapply delete_holds).
    rewrite bind_Undefined; [done|]. by apply get_size_None. }
  destruct (Hwf _ _ Ho) as [vs Hb].
  destruct (decide (size_ b ≤ room s + size_ d)) as [Hr|Hr]; cycle 1.
  { unfold Buffer_copy_assign. step.
    erewrite bind_Ok by (by eapply delete_holds). step.
    rewrite bind_Throw with (s' :=
      mkState (objs s) (release (ptr_ d) (blocks s)) (room s + size_ d));
      [done|].
    apply new_array_Throw. cbn. lia. }
  destruct (decide (this = other)) as [->|Hne].
  - assert (d = b) as -> by congruence.
    unfold Buffer_copy_assign. step.
    erewrite bind_Ok by (by eapply delete_holds). step.
    erewrite bind_Ok by (by apply new_array_Ok).
    do 3 step. rewrite !insert_insert_eq.
    erewrite (copy_from_self other _ (release (ptr_ b) (blocks s)));
      [|lookup|done|done].
    cbn [size_]. destruct (decide (size_ b = 0)) as [Hn|]; [|done].
    intros [= <-]. exists b, b, vs. repeat (split; [done|]).
    pose proof (holds_nil _ _ _ Hb Hn) as ->.
    split; [done|]. split; [done|].
    by rewrite release_length, Hn.
  - erewrite copy_assign_spec; [|done..|by eapply Hsep|done].
    intros [= <-]. exists d, b, vs. by split_and!.
Qed.
End outcomes.

Section outcomes_rest.
Implicit Types (s : state) (b d : Buffer) (vs : list float).

Lemma dtor_inv this s s' :
  store_ok s →
  Buffer_dtor this s = Ok () s' →
  ∃ b, objs s !! this = Some b
       ∧ s' = mkState (delete this (objs s)) (release (ptr_ b) (blocks s))
                      (room s + size_ b).
Proof.
  intros [Hwf _].
  destruct (objs s !! this) as [b|] eqn:Ht; cycle 1.
  { unfold Buffer_dtor, Buffer_dtor_body.
    rewrite bind_Undefined; [done|]. apply bind_Undefined.
    by apply get_ptr_None. }
  destruct (Hwf _ _ Ht) as [vs Hb].
  erewrite dtor_spec by done. intros [= <-]. by exists b.
Qed.

(** The move constructor, whatever the storage it constructs in. *)
Lemma move_ctor_any this other b s :
  objs s !! other = Some b →
  Buffer_move_ctor this other s
  = Ok () (mkState (<[other := mkBuffer 0 nullptr]> (<[this := b]> (objs s)))
                   (blocks s) (room s)).
Proof.
  intros Ho. unfold Buffer_move_ctor. do 3 step. rewrite Buffer_eta.
  destruct (decide (this = other)) as [->|Hne].
  - by erewrite relinquish_spec by lookup.
  - by erewrite relinquish_spec by lookup.
Qed.

Lemma move_ctor_inv this other s s' :
  Buffer_move_ctor this other s = Ok () s' →
  ∃ b, objs s !! other = Some b
       ∧ s' = mkState (<[other := mkBuffer 0 nullptr]> (<[this := b]> (objs s)))
                      (blocks s) (room s).
Proof.
  destruct (objs s !! other) as [b|] eqn:Ho.
  - erewrite move_ctor_any by done. intros [= <-]. by exists b.
  - unfold Buffer_move_ctor. rewrite bind_Undefined; [done|].
    by apply get_size_None.
Qed.

Lemma move_assign_inv this other s s' :
  Buffer_move_assign this other s = Ok () s' →
  ∃ d b, objs s !! this = Some d
         ∧ objs s !! other = Some b
         ∧ s' = mkState (<[other := mkBuffer 0 nullptr]> (<[this := b]> (objs s)))
                        (blocks s) (room s).
Proof.
  destruct (objs s !! other) as [b|] eqn:Ho; cycle 1.
  { unfold Buffer_move_assign, take_over.
    rewrite bind_Undefined; [done|]. apply bind_Undefined.
    by apply get_ptr_None. }
  destruct (objs s !! this) as [d|] eqn:Ht; cycle 1.
  { unfold Buffer_move_assign, take_over.
    rewrite bind_Undefined; [done|]. step. apply bind_Undefined.
    by apply set_ptr_None. }
  erewrite move_assign_spec by done. intros [= <-]. by exists d, b.
Qed.

Lemma swap_inv this other s s' :
  Buffer_swap this other s = Ok () s' →
  ∃ a b, objs s !! this = Some a
         ∧ objs s !! other = Some b
         ∧ s' = mkState (<[other := a]> (<[this := b]> (objs s)))
                        (blocks s) (room s).
Proof.
  destruct (objs s !! this) as [a|] eqn:Ht; cycle 1.
  { unfold Buffer_swap. rewrite bind_Undefined; [done|].
    by apply get_size_None. }
  destruct (objs s !! other) as [b|] eqn:Ho; cycle 1.
  { unfold Buffer_swap. step. rewrite bind_Undefined; [done|].
    by apply get_size_None. }
  erewrite swap_spec by done. intros [= <-]. by exists a, b.
Qed.

(** [printBuffer] is [const]: what it reports is the members and the
    elements of the object, and the state is as before. *)
Lemma printBuffer_inv this s r s' :
  printBuffer this s = Ok r s' →
  s' = s
  ∧ ∃ b, objs s !! this = Some b
         ∧ r_size r = size_ b
         ∧ r_addr r = ptr_ b
         ∧ elements b s = Some (r_elems r).
Proof.
  destruct (objs s !! this) as [b|] eqn:Ht; cycle 1.
  { unfold printBuffer. rewrite bind_Undefined; [done|].
    by apply get_size_None. }
  unfold printBuffer. do 4 step. unfold bind, elements.
  destruct (print_elems (ptr_ b) 0 (size_ b) s) as [ws s1| |] eqn:E; [|done..].
  pose proof (print_elems_readonly _ _ _ _ _ _ E) as ->.
  unfold ret. intros [= <- <-]. split; [done|]. exists b. by rewrite E.
Qed.

Lemma printBuffer_no_throw this s s' : printBuffer this s ≠ Throw s'.
Proof.
  destruct (objs s !! this) as [b|] eqn:Ht; cycle 1.
  { unfold printBuffer. rewrite bind_Undefined; [done|].
    by apply get_size_None. }
  unfold printBuffer. do 4 step. unfold bind.
  destruct (print_elems (ptr_ b) 0 (size_ b) s) as [ws s1| |] eqn:E; [done| |done].
  exfalso. revert E. generalize (ptr_ b) as p, (size_ b) as n, 0 as i.
  intros p n. induction n as [|n IH]; intros i; [done|].
  cbn [print_elems]. unfold bind at 1. unfold ptr_add.
  destruct p as [|l off].
  - destruct (decide (i = 0)); [|done]. by unfold bind, load.
  - destruct (blocks s !! l) as [[a|]|] eqn:Hl; [|done..].
    destruct (decide (off + i ≤ length a)); [|done].
    unfold bind at 1. unfold load. rewrite Hl.
    destruct (a !! (off + i)) as [[v|]|]; [|done..].
    unfold bind at 1.
    destruct (print_elems (Ptr l off) (S i) n s) as [r s2|s2|] eqn:E; [done| |done].
    intros [= ->]. by eapply IH.
Qed.
End outcomes_rest.

(** ** The invariant of the store *)

Section invariant.
Implicit Types (s : state) (b d : Buffer) (vs : list float).

Lemma holds_live s b vs l off :
  holds s b vs → ptr_ b = Ptr l off → l < length (blocks s) ∧ off = 0.
Proof.
  intros [(l' & Hp & _ & Hl)|[[_ Hp] _]] E; [|congruence].
  rewrite Hp in E. injection E as -> <-.
  split; [by eapply lookup_lt_Some|done].
Qed.

Lemma separate_empty_l b : separate (mkBuffer 0 nullptr) b.
Proof. done. Qed.

Lemma separate_empty_r b : separate b (mkBuffer 0 nullptr).
Proof. by intros E. Qed.

Lemma store_ok_start r : store_ok (start r).
Proof.
  split; cbn.
  - intros x b H. by rewrite lookup_empty in H.
  - intros x y bx by' _ H. by rewrite lookup_empty in H.
Qed.

(** A buffer that gets an array fresh from [new], while the arrays of
    the other buffers stay. *)
Lemma store_ok_fresh s this n vs (BL : list (option (list cell))) r' :
  store_ok s →
  n = length vs →
  length BL = length (blocks s) →
  (∀ x b l a, x ≠ this → objs s !! x = Some b → ptr_ b = Ptr l 0 →
     blocks s !! l = Some (Some a) → BL !! l = Some (Some a)) →
  store_ok (mkState
              (<[this := mkBuffer n (Ptr (length (blocks s)) 0)]> (objs s))
              (BL ++ [Some (Some <$> vs)]) r').
Proof.
  intros [Hwf Hsep] -> HBL Hkeep.
  assert (∀ x b, x ≠ this → objs s !! x = Some b →
            ptr_ b ≠ Ptr (length (blocks s)) 0) as Hold.
  { intros x b Hx Hb E. destruct (Hwf _ _ Hb) as [ws Hh].
    destruct (holds_live _ _ _ _ _ Hh E). lia. }
  split; cbn.
  - intros x b [[<- <-]|[Hx Hb]]%lookup_insert_Some.
    + exists vs. left. exists (length (blocks s)). cbn.
      split; [done|]. split; [done|]. rewrite <- HBL. apply fresh_lookup.
    + destruct (Hwf _ _ Hb) as [ws Hh]. exists ws.
      eapply holds_frame; [done|]. cbn. intros l a Hp Hl.
      apply lookup_app_l_Some. eapply (Hkeep x); [by intros ->|done..].
  - intros x y bx by' Hxy [[<- <-]|[Hx Hbx]]%lookup_insert_Some
      [[<- <-]|[Hy Hby]]%lookup_insert_Some; try done.
    + intros E. cbn in E. symmetry in E.
      by destruct (Hold _ _ (not_eq_sym Hy) Hby).
    + intros E. cbn in E. by destruct (Hold _ _ (not_eq_sym Hx) Hbx).
    + by eapply (Hsep x y).
Qed.

(** After the destructor. *)
Lemma store_ok_destroyed s this b r' :
  store_ok s →
  objs s !! this = Some b →
  store_ok (mkState (delete this (objs s)) (release (ptr_ b) (blocks s)) r').
Proof.
  intros [Hwf Hsep] Ht. split; cbn.
  - intros x bx [Hx Hbx]%lookup_delete_Some.
    destruct (Hwf _ _ Hbx) as [ws Hh]. exists ws.
    apply holds_release; [done|]. by eapply (Hsep this x).
  - intros x y bx by' Hxy [Hx Hbx]%lookup_delete_Some
      [Hy Hby]%lookup_delete_Some. by eapply (Hsep x y).
Qed.

(** After a move: the destination has the source's members, the source
    is empty. *)
Lemma store_ok_moved s this other b :
  store_ok s →
  objs s !! other = Some b →
  store_ok (mkState (<[other := mkBuffer 0 nullptr]> (<[this := b]> (objs s)))
                    (blocks s) (room s)).
Proof.
  intros [Hwf Hsep] Ho. split; cbn.
  - intros x bx [[<- <-]|[Hx [[<- <-]|[Hx' Hbx]]%lookup_insert_Some]]%lookup_insert_Some.
    + exists []. by right.
    + destruct (Hwf _ _ Ho) as [ws Hh]. exists ws. by eapply holds_frame.
    + destruct (Hwf _ _ Hbx) as [ws Hh]. exists ws. by eapply holds_frame.
  - intros x y bx by' Hxy
      [[<- <-]|[Hx [[<- <-]|[Hx' Hbx]]%lookup_insert_Some]]%lookup_insert_Some
      [[<- <-]|[Hy [[<- <-]|[Hy' Hby]]%lookup_insert_Some]]%lookup_insert_Some;
      try done; try apply separate_empty_l; try apply separate_empty_r.
    + by eapply (Hsep other y).
    + by eapply (Hsep x other).
    + by eapply (Hsep x y).
Qed.

(** After [swap]. *)
Lemma store_ok_swapped s this other a b :
  store_ok s →
  objs s !! this = Some a →
  objs s !! other = Some b →
  store_ok (mkState (<[other := a]> (<[this := b]> (objs s)))
                    (blocks s) (room s)).
Proof.
  intros [Hwf Hsep] Ht Ho. split; cbn.
  - intros x bx [[<- <-]|[Hx [[<- <-]|[Hx' Hbx]]%lookup_insert_Some]]%lookup_insert_Some.
    + destruct (Hwf _ _ Ht) as [ws Hh]. exists ws. by eapply holds_frame.
    + destruct (Hwf _ _ Ho) as [ws Hh]. exists ws. by eapply holds_frame.
    + destruct (Hwf _ _ Hbx) as [ws Hh]. exists ws. by eapply holds_frame.
  - intros x y bx by' Hxy
      [[<- <-]|[Hx [[<- <-]|[Hx' Hbx]]%lookup_insert_Some]]%lookup_insert_Some
      [[<- <-]|[Hy [[<- <-]|[Hy' Hby]]%lookup_insert_Some]]%lookup_insert_Some;
      try done.
    + by eapply (Hsep this other).
    + by eapply (Hsep this y).
    + by eapply (Hsep other this).
    + by eapply (Hsep other y).
    + by eapply (Hsep x this).
    + by eapply (Hsep x other).
    + by eapply (Hsep x y).
Qed.

Lemma store_ok_step c s s' :
  store_ok s → run c s = Ok () s' → store_ok s'.
Proof.
  intros Hok. pose proof Hok as [Hwf Hsep].
  destruct c as [this values|this other|this other|this|this other
                |this other|this other|this]; cbn [run].
  - intros [_ ->]%ctor_inv. by apply store_ok_fresh.
  - intros (b & vs & Ho & Hb & _ & ->)%copy_ctor_inv; [|done].
    apply store_ok_fresh; [done|by eapply holds_size|done..].
  - intros (d & b & vs & Ht & Ho & Hb & _ & _ & ->)%copy_assign_inv; [|done].
    apply store_ok_fresh; [done|by eapply holds_size|apply release_length|].
    intros x bx l a Hx Hbx Hp Hl.
    destruct (Hwf _ _ Hbx) as [ws Hh].
    assert (holds (mkState (objs s) (release (ptr_ d) (blocks s)) 0) bx ws)
      as [(l' & Hp' & _ & Hl')|[[_ Hp'] _]]; [|..|congruence].
    { apply holds_release; [done|]. by eapply (Hsep this x). }
    destruct Hh as [(l'' & Hp'' & _ & Hl'')|[[_ Hp''] _]]; [|congruence].
    cbn in Hl'. congruence.
  - intros (b & Ht & ->)%dtor_inv; [|done]. by apply store_ok_destroyed.
  - intros (b & Ho & ->)%move_ctor_inv. by apply store_ok_moved.
  - intros (d & b & Ht & Ho & ->)%move_assign_inv. by apply store_ok_moved.
  - intros (a & b & Ht & Ho & ->)%swap_inv. by apply store_ok_swapped.
  - unfold bind.
    destruct (printBuffer this s) as [r s1| |] eqn:E; [|done..].
    apply printBuffer_inv in E as [-> _]. unfold ret. by intros [= <-].
Qed.
End invariant.

(** ** Leaks *)

Section leaks.
Implicit Types (s : state) (b d : Buffer) (vs : list float).

Lemma release_lookup_live p (bl : list (option (list cell))) l a :
  release p bl !! l = Some (Some a) →
  bl !! l = Some (Some a) ∧ p ≠ Ptr l 0.
Proof.
  destruct p as [|l' [|off]]; cbn; [done| |by intros ?].
  intros [[_ [[=] _]]|[Hne Hl]]%list_lookup_insert_Some.
  split; [done|]. by intros [= ->].
Qed.

(** A buffer gets a fresh array; the arrays that stay live were live
    before and were not its own. *)
Lemma no_leak_fresh s this n (BL : list (option (list cell))) y r' :
  no_leak s →
  length BL = length (blocks s) →
  (∀ l a, BL !! l = Some (Some a) →
     blocks s !! l = Some (Some a)
     ∧ ∀ d, objs s !! this = Some d → ptr_ d ≠ Ptr l 0) →
  no_leak (mkState
             (<[this := mkBuffer n (Ptr (length (blocks s)) 0)]> (objs s))
             (BL ++ [y]) r').
Proof.
  intros Hnl HBL Hkeep l a. cbn.
  intros [Hl|[Hge Hl]]%lookup_app_Some.
  - destruct (Hkeep _ _ Hl) as [Hl' Hown].
    destruct (Hnl _ _ Hl') as (x & b & Hx & Hp).
    exists x, b. split; [|done].
    rewrite lookup_insert_ne; [done|]. intros <-. by eapply Hown.
  - apply lookup_lt_Some in Hl as Hlt. cbn in Hlt.
    assert (l = length (blocks s)) as -> by lia.
    eexists this, _. by rewrite lookup_insert_eq.
Qed.

(** The arrays stay and every owner of one is still an owner of it. *)
Lemma no_leak_objs s o r' :
  no_leak s →
  (∀ x b l, objs s !! x = Some b → ptr_ b = Ptr l 0 →
     ∃ y b', o !! y = Some b' ∧ ptr_ b' = Ptr l 0) →
  no_leak (mkState o (blocks s) r').
Proof.
  intros Hnl Hmap l a Hl. cbn in Hl.
  destruct (Hnl _ _ Hl) as (x & b & Hx & Hp). by eapply Hmap.
Qed.

Lemma no_leak_step c s s' :
  store_ok s → no_leak s → leak_safe s c →
  run c s = Ok () s' → no_leak s'.
Proof.
  intros Hok Hnl. pose proof Hok as [Hwf Hsep].
  destruct c as [this values|this other|this other|this|this other
                |this other|this other|this]; cbn [run leak_safe]; intros Hsafe.
  - intros [_ ->]%ctor_inv. apply no_leak_fresh; [done..|].
    intros l a Hl. split; [done|]. intros d Hd. congruence.
  - intros (b & vs & Ho & Hb & _ & ->)%copy_ctor_inv; [|done].
    apply no_leak_fresh; [done..|].
    intros l a Hl. split; [done|]. intros d Hd. congruence.
  - intros (d & b & vs & Ht & Ho & Hb & _ & _ & ->)%copy_assign_inv; [|done].
    apply no_leak_fresh; [done|apply release_length|].
    intros l a [Hl Hp]%release_lookup_live. split; [done|].
    intros d' Hd'. congruence.
  - intros (b & Ht & ->)%dtor_inv; [|done].
    intros l a [Hl Hp]%release_lookup_live.
    destruct (Hnl _ _ Hl) as (x & bx & Hx & Hpx).
    exists x, bx. split; [|done]. cbn.
    rewrite lookup_delete_ne; [done|]. intros <-. congruence.
  - intros (b & Ho & ->)%move_ctor_inv. apply no_leak_objs; [done|].
    intros x bx l Hx Hp.
    assert (this ≠ other) as Hne by (intros ->; congruence).
    destruct (decide (x = other)) as [->|Hxo].
    + exists this, b. rewrite lookup_insert_ne, lookup_insert_eq by done.
      split; [done|]. congruence.
    + exists x, bx. rewrite !lookup_insert_ne; [done| |done].
      intros <-. congruence.
  - intros (d & b & Ht & Ho & ->)%move_assign_inv. apply no_leak_objs; [done|].
    intros x bx l Hx Hp. specialize (Hsafe _ Ht).
    assert (x ≠ this) as Hxt by (intros ->; congruence).
    destruct (decide (x = other)) as [->|Hxo].
    + exists this, b. rewrite lookup_insert_ne, lookup_insert_eq by done.
      split; [done|]. congruence.
    + exists x, bx. by rewrite !lookup_insert_ne.
  - intros (a & b & Ht & Ho & ->)%swap_inv. apply no_leak_objs; [done|].
    intros x bx l Hx Hp.
    destruct (decide (x = this)) as [->|Hxt].
    + exists other, a. rewrite lookup_insert_eq. split; [done|]. congruence.
    + destruct (decide (x = other)) as [->|Hxo].
      * exists this, b. rewrite lookup_insert_ne, lookup_insert_eq by done.
        split; [done|]. congruence.
      * exists x, bx. by rewrite !lookup_insert_ne.
  - unfold bind.
    destruct (printBuffer this s) as [r s1| |] eqn:E; [|done..].
    apply printBuffer_inv in E as [-> _]. unfold ret. by intros [= <-].
Qed.
End leaks.

(** ** Copy assignment between two buffers, destruction, failed
    construction *)

Section more_facts.
Implicit Types (s : state) (b d : Buffer) (vs : list float).

Lemma print_elems_length p n : ∀ i s vs s',
  print_elems p i n s = Ok vs s' → length vs = n.
Proof.
  induction n as [|n IH]; intros i s vs s'; cbn [print_elems].
  - unfold ret. by intros [= <- _].
  - unfold bind at 1.
    destruct (ptr_add p i s) as [q s1| |]; [|done..].
    unfold bind at 1. destruct (load q s1) as [v s2| |]; [|done..].
    unfold bind at 1.
    destruct (print_elems p (S i) n s2) as [r s3| |] eqn:E; [|done..].
    unfold ret. intros [= <- _]. cbn. f_equal. by eapply IH.
Qed.

Lemma holds_fresh o (BL : list (option (list cell))) n vs r' :
  n = length vs →
  holds (mkState o (BL ++ [Some (Some <$> vs)]) r')
        (mkBuffer n (Ptr (length BL) 0)) vs.
Proof.
  intros ->. left. exists (length BL). cbn.
  split; [done|]. split; [done|]. apply fresh_lookup.
Qed.

Lemma holds_app s b vs o y r' :
  holds s b vs → holds (mkState o (blocks s ++ [y]) r') b vs.
Proof.
  intros Hb. eapply holds_frame; [done|]. cbn. intros l a _ Hl.
  by apply lookup_app_l_Some.
Qed.
End more_facts.

(** X1. Copy assignment [D = S] between two buffers that do not share an
    array, when the allocation succeeds: [D] ends with the size and the
    elements of [S] in an array of its own, [S] is as before, the array
    [D] owned has been released, the free store has the difference of
    the sizes less room, and a later write to [D] does not show in [S]. *)
Theorem copy_assign_copies
    (this other : oid) (D B : Buffer) (ws vs : list float) (s : state) :
  objs s !! this = Some D →
  holds s D ws →
  objs s !! other = Some B →
  holds s B vs →
  this ≠ other →
  separate D B →
  size_ B ≤ room s + size_ D →
  ∃ s' D',
    Buffer_copy_assign this other s = Ok () s'
    ∧ objs s' !! this = Some D'
    ∧ objs s' !! other = Some B
    ∧ size_ D' = size_ B
    ∧ elements D' s' = Some vs
    ∧ elements B s' = Some vs
    ∧ ptr_ D' ≠ ptr_ B
    ∧ (∀ l, ptr_ D = Ptr l 0 → blocks s' !! l = Some None)
    ∧ room s' = room s + size_ D - size_ B
    ∧ (∀ i v, i < size_ D' →
         ∃ s'', poke (ptr_ D') i v s' = Ok () s''
                ∧ elements D' s'' = Some (<[i := v]> vs)
                ∧ elements B s'' = Some vs).
Proof.
  intros Ht HD Ho HB Hne Hsep Hroom.
  set (D' := mkBuffer (size_ B) (Ptr (length (blocks s)) 0)).
  set (s' := mkState (<[this := D']> (objs s))
                     (release (ptr_ D) (blocks s) ++ [Some (Some <$> vs)])
                     (room s + size_ D - size_ B)).
  assert (holds s' D' vs) as HD'.
  { unfold s', D'. rewrite <- (release_length (ptr_ D)).
    apply holds_fresh. by eapply holds_size. }
  assert (holds s' B vs) as HB'.
  { apply (holds_app (mkState (objs s) (release (ptr_ D) (blocks s)) 0)).
    by apply holds_release. }
  assert (ptr_ D' ≠ ptr_ B) as Hptr.
  { intros E. symmetry in E. destruct (holds_live _ _ _ _ _ HB E). lia. }
  exists s', D'. split; [by eapply copy_assign_spec|].
  split; [unfold s'; by lookup|]. split; [unfold s'; by lookup|].
  split; [done|]. split; [by apply elements_holds|].
  split; [by apply elements_holds|]. split; [done|]. split.
  { intros l Hl. destruct (holds_live _ _ _ _ _ HD Hl) as [Hlt _].
    unfold s'. cbn. rewrite Hl. cbn.
    rewrite lookup_app_l by (by rewrite length_insert).
    by apply list_lookup_insert_eq. }
  split; [done|].
  intros i v Hi.
  destruct (poke_holds s' D' vs i v HD' Hi) as (s'' & Hpoke & _ & H2 & Hfr).
  exists s''. split; [done|]. split; [by apply elements_holds|].
  apply elements_holds. apply Hfr; [done|]. by intros E.
Qed.

Lemma copy_assign_copies_witness :
  let s := mkState {[1 := mkBuffer 1 (Ptr 0 0); 2 := mkBuffer 2 (Ptr 1 0)]}
                   [Some [Some f1]; Some [Some f2; Some f3]] 1 in
  ∃ s' D',
    Buffer_copy_assign 1 2 s = Ok () s'
    ∧ objs s' !! 1 = Some D'
    ∧ elements D' s' = Some [f2; f3]
    ∧ blocks s' !! 0 = Some None
    ∧ room s' = 0.
Proof.
  intros s.
  destruct (copy_assign_copies 1 2 (mkBuffer 1 (Ptr 0 0)) (mkBuffer 2 (Ptr 1 0))
              [f1] [f2; f3] s)
    as (s' & D' & H1 & H2 & _ & _ & H5 & _ & _ & H8 & H9 & _).
  - reflexivity.
  - left. exists 0. repeat split; reflexivity.
  - reflexivity.
  - left. exists 1. repeat split; reflexivity.
  - lia.
  - intros [=].
  - cbn. lia.
  - exists s', D'. repeat split; try assumption. by apply H8.
Defined.

(** X2. The destructor of a buffer that owns an array: the object is
    gone, its array is released and the free store has room for as many
    floats more; every other buffer that does not share the array keeps
    its members and its elements. *)
Theorem dtor_releases (this : oid) (b : Buffer) (vs : list float) (s : state) :
  objs s !! this = Some b →
  owns_array s b vs →
  ∃ s' l,
    ptr_ b = Ptr l 0
    ∧ Buffer_dtor this s = Ok () s'
    ∧ objs s' !! this = None
    ∧ blocks s' !! l = Some None
    ∧ room s' = room s + length vs
    ∧ ∀ x bx ws, x ≠ this → objs s !! x = Some bx → holds s bx ws →
        separate b bx →
        objs s' !! x = Some bx ∧ elements bx s' = Some ws.
Proof.
  intros Ht Hb. pose proof Hb as (l & Hp & Hn & Hl).
  apply lookup_lt_Some in Hl as Hlt.
  eexists _, l. split; [done|].
  split; [eapply dtor_spec; [done|by left]|]. cbn.
  split; [by rewrite lookup_delete_eq|]. rewrite Hp. cbn.
  split; [by apply list_lookup_insert_eq|]. split; [by rewrite Hn|].
  intros x bx ws Hx Hbx Hh Hsep.
  split; [by rewrite lookup_delete_ne|].
  apply elements_holds.
  pose proof (holds_release s b bx ws (delete this (objs s))
                (room s + size_ b) Hh Hsep) as Hh'.
  rewrite Hp in Hh'. exact Hh'.
Qed.

Lemma dtor_releases_witness :
  let s := mkState {[1 := mkBuffer 1 (Ptr 0 0); 2 := mkBuffer 2 (Ptr 1 0)]}
                   [Some [Some f1]; Some [Some f2; Some f3]] 0 in
  ∃ s',
    Buffer_dtor 2 s = Ok () s'
    ∧ objs s' !! 2 = None
    ∧ room s' = 2
    ∧ elements (mkBuffer 1 (Ptr 0 0)) s' = Some [f1].
Proof.
  intros s.
  destruct (dtor_releases 2 (mkBuffer 2 (Ptr 1 0)) [f2; f3] s)
    as (s' & l & _ & H2 & H3 & _ & H5 & H6).
  - reflexivity.
  - exists 1. repeat split; reflexivity.
  - destruct (H6 1 (mkBuffer 1 (Ptr 0 0)) [f1]) as [_ H7].
    + lia.
    + reflexivity.
    + left. exists 0. repeat split; reflexivity.
    + intros [=].
    + exists s'. repeat split; assumption.
Defined.

(** X3. A constructor whose allocation fails ends with [std::bad_alloc]
    and leaves the state exactly as it was: no object in the storage
    constructed in, nothing allocated, the source of a copy untouched. *)
Theorem failed_construction_leaves_nothing
    (this other : oid) (values : list float) (b : Buffer) (s : state) :
  objs s !! this = None →
  (room s < length values → Buffer_ctor this values s = Throw s)
  ∧ (objs s !! other = Some b → room s < size_ b →
       Buffer_copy_ctor this other s = Throw s).
Proof.
  intros Ht. split.
  - intros Hr. rewrite ctor_throw by done.
    by rewrite delete_id, state_eta.
  - intros Ho Hr. erewrite copy_ctor_throw by done.
    by rewrite delete_id, state_eta.
Qed.

Lemma failed_construction_leaves_nothing_witness :
  let s := mkState {[1 := mkBuffer 3 (Ptr 0 0)]}
                   [Some [Some f1; Some f2; Some f3]] 2 in
  Buffer_ctor 2 [f1; f2; f3] s = Throw s
  ∧ Buffer_copy_ctor 2 1 s = Throw s.
Proof.
  intros s.
  destruct (failed_construction_leaves_nothing 2 1 [f1; f2; f3]
              (mkBuffer 3 (Ptr 0 0)) s) as [H1 H2].
  - reflexivity.
  - split; [apply H1|apply H2]; cbn; (reflexivity || lia).
Defined.

(** X4. [printBuffer] is [const] and cannot throw: when it returns, the
    state is the one it was called in, and the report carries the size
    and the data pointer of the object and exactly [size_] elements,
    those read through the pointer. *)
Theorem printBuffer_is_const (this : oid) (s : state) :
  match printBuffer this s with
  | Ok r s' =>
      s' = s
      ∧ ∃ b, objs s !! this = Some b
             ∧ r_size r = size_ b
             ∧ r_addr r = ptr_ b
             ∧ elements b s = Some (r_elems r)
             ∧ length (r_elems r) = size_ b
  | Throw _ => False
  | Undefined => True
  end.
Proof.
  destruct (printBuffer this s) as [r s'|s'|] eqn:E; [| |done].
  - apply printBuffer_inv in E as (-> & b & Hb & Hn & Hp & He).
    split; [done|]. exists b. repeat (split; [done|]).
    unfold elements in He.
    destruct (print_elems (ptr_ b) 0 (size_ b) s) as [ws s1| |] eqn:E';
      [|done..].
    injection He as <-. by eapply print_elems_length.
  - by eapply printBuffer_no_throw.
Qed.

(** X5. Printing after a move: the moved-from buffer prints as size 0,
    null address and no elements, the destination prints the size, the
    address and the elements the source had. This holds for move
    construction and for move assignment. *)
Theorem print_after_move
    (this other : oid) (B : Buffer) (vs : list float) (s : state) :
  objs s !! other = Some B →
  holds s B vs →
  this ≠ other →
  (∃ s', Buffer_move_ctor this other s = Ok () s'
         ∧ printBuffer other s' = Ok (mkReport 0 nullptr []) s'
         ∧ printBuffer this s' = Ok (mkReport (size_ B) (ptr_ B) vs) s')
  ∧ (∀ D, objs s !! this = Some D →
       ∃ s', Buffer_move_assign this other s = Ok () s'
             ∧ printBuffer other s' = Ok (mkReport 0 nullptr []) s'
             ∧ printBuffer this s' = Ok (mkReport (size_ B) (ptr_ B) vs) s').
Proof.
  intros Ho HB Hne.
  assert (∀ s', s' = mkState (<[other := mkBuffer 0 nullptr]>
                                (<[this := B]> (objs s)))
                             (blocks s) (room s) →
            printBuffer other s' = Ok (mkReport 0 nullptr []) s'
            ∧ printBuffer this s' = Ok (mkReport (size_ B) (ptr_ B) vs) s')
    as Hprint.
  { intros s' ->. split.
    - apply (printBuffer_holds other _ (mkBuffer 0 nullptr) []); [lookup|].
      by right.
    - apply (printBuffer_holds this _ B vs); [lookup|].
      by eapply holds_frame. }
  split; [|intros D Ht]; eexists.
  - split; [by apply move_ctor_spec|]. by apply Hprint.
  - split; [by eapply move_assign_spec|]. by apply Hprint.
Qed.

Lemma print_after_move_witness :
  let s := mkState {[1 := mkBuffer 3 (Ptr 0 0)]}
                   [Some [Some f1; Some f2; Some f3]] 0 in
  ∃ s', Buffer_move_ctor 2 1 s = Ok () s'
        ∧ printBuffer 1 s' = Ok (mkReport 0 nullptr []) s'
        ∧ printBuffer 2 s' = Ok (mkReport 3 (Ptr 0 0) [f1; f2; f3]) s'.
Proof.
  intros s.
  destruct (print_after_move 2 1 (mkBuffer 3 (Ptr 0 0)) [f1; f2; f3] s)
    as [H _].
  - reflexivity.
  - left. exists 0. repeat split; reflexivity.
  - lia.
  - exact H.
Defined.

(** X6. [swap] is its own inverse: swapping the same two buffers twice
    gives back the state, and swapping a buffer with itself changes
    nothing. *)
Theorem swap_twice (this other : oid) (a b : Buffer) (s : state) :
  objs s !! this = Some a →
  objs s !! other = Some b →
  (Buffer_swap this other ;; Buffer_swap this other) s = Ok () s
  ∧ (this = other → Buffer_swap this other s = Ok () s).
Proof.
  intros Ht Ho. split.
  - erewrite bind_Ok by (by apply swap_spec).
    destruct (decide (this = other)) as [->|Hne].
    + assert (a = b) as -> by congruence.
      erewrite swap_spec by lookup. cbn.
      rewrite !insert_insert_eq, insert_id by done. by rewrite state_eta.
    + erewrite swap_spec by lookup. cbn.
      transitivity (Ok () (mkState (objs s) (blocks s) (room s)));
        [|by rewrite state_eta].
      do 2 f_equal. apply map_eq. intros k.
      destruct (decide (other = k)) as [<-|];
        [by rewrite lookup_insert_eq|].
      rewrite lookup_insert_ne by done.
      destruct (decide (this = k)) as [<-|];
        [by rewrite lookup_insert_eq|].
      by rewrite !lookup_insert_ne.
  - intros ->. assert (a = b) as -> by congruence.
    erewrite swap_spec by done.
    rewrite !insert_insert_eq, insert_id by done. by rewrite state_eta.
Qed.

Lemma swap_twice_witness :
  let s := mkState {[1 := mkBuffer 1 (Ptr 0 0); 2 := mkBuffer 2 (Ptr 1 0)]}
                   [Some [Some f1]; Some [Some f2; Some f3]] 0 in
  (Buffer_swap 1 2 ;; Buffer_swap 1 2) s = Ok () s.
Proof.
  intros s.
  apply (swap_twice 1 2 (mkBuffer 1 (Ptr 0 0)) (mkBuffer 2 (Ptr 1 0)) s);
    reflexivity.
Defined.

(** X7. [a.swap(b)] and [b.swap(a)] are the same operation, also where
    one of the objects is not alive (both are undefined then). *)
Theorem swap_commutes (this other : oid) (s : state) :
  Buffer_swap this other s = Buffer_swap other this s.
Proof.
  destruct (objs s !! this) as [a|] eqn:Ht,
           (objs s !! other) as [b|] eqn:Ho.
  - erewrite !swap_spec by done.
    destruct (decide (this = other)) as [->|Hne]; [congruence|].
    do 2 f_equal. by apply insert_insert_ne.
  - transitivity (@Undefined ()); [|symmetry]; unfold Buffer_swap.
    + step. apply bind_Undefined. by apply get_size_None.
    + apply bind_Undefined. by apply get_size_None.
  - transitivity (@Undefined ()); [|symmetry]; unfold Buffer_swap.
    + apply bind_Undefined. by apply get_size_None.
    + step. apply bind_Undefined. by apply get_size_None.
  - transitivity (@Undefined ()); [|symmetry]; unfold Buffer_swap.
    + apply bind_Undefined. by apply get_size_None.
    + apply bind_Undefined. by apply get_size_None.
Qed.

(** X8. Exchanging two buffers through a temporary with the move
    operations ([Buffer tmp(std::move(x)); x = std::move(y);
    y = std::move(tmp);], then [tmp] destroyed) is exactly the member
    [swap]: each move assignment there has an empty destination, so
    nothing is leaked, and no array is allocated or released. *)
Theorem move_exchange_is_swap
    (tmp x y : oid) (a b : Buffer) (s : state) :
  objs s !! x = Some a →
  objs s !! y = Some b →
  objs s !! tmp = None →
  (Buffer_move_ctor tmp x ;; Buffer_move_assign x y ;;
   Buffer_move_assign y tmp ;; Buffer_dtor tmp) s
  = Buffer_swap x y s.
Proof.
  intros Hx Hy Htmp.
  assert (tmp ≠ x) as Htx by (intros ->; congruence).
  assert (tmp ≠ y) as Hty by (intros ->; congruence).
  erewrite swap_spec by done.
  erewrite bind_Ok by (by apply move_ctor_any).
  destruct (decide (x = y)) as [->|Hxy].
  - assert (a = b) as -> by congruence.
    erewrite bind_Ok by (eapply move_assign_spec; lookup).
    erewrite bind_Ok by (eapply move_assign_spec; lookup).
    erewrite dtor_empty_spec; [|lookup|done]. cbn.
    do 2 f_equal. apply map_eq. intros k.
    destruct (decide (tmp = k)) as [<-|Hk].
    + rewrite lookup_delete_eq, !lookup_insert_ne by done. by rewrite Htmp.
    + rewrite lookup_delete_ne, (lookup_insert_ne _ tmp) by done.
      destruct (decide (y = k)) as [<-|Hk'].
      * by rewrite !lookup_insert_eq.
      * by rewrite !lookup_insert_ne.
  - erewrite bind_Ok by (eapply move_assign_spec; lookup).
    erewrite bind_Ok by (eapply move_assign_spec; lookup).
    erewrite dtor_empty_spec; [|lookup|done]. cbn.
    do 2 f_equal. apply map_eq. intros k.
    destruct (decide (tmp = k)) as [<-|Hk].
    + rewrite lookup_delete_eq, !lookup_insert_ne by done. by rewrite Htmp.
    + rewrite lookup_delete_ne, (lookup_insert_ne _ tmp) by done.
      destruct (decide (y = k)) as [<-|Hk'].
      * by rewrite !lookup_insert_eq.
      * rewrite !(lookup_insert_ne _ y) by done.
        destruct (decide (x = k)) as [<-|Hk''].
        -- by rewrite !lookup_insert_eq.
        -- by rewrite !lookup_insert_ne.
Qed.

Lemma move_exchange_is_swap_witness :
  let s := mkState {[1 := mkBuffer 1 (Ptr 0 0); 2 := mkBuffer 2 (Ptr 1 0)]}
                   [Some [Some f1]; Some [Some f2; Some f3]] 0 in
  (Buffer_move_ctor 3 1 ;; Buffer_move_assign 1 2 ;;
   Buffer_move_assign 2 3 ;; Buffer_dtor 3) s
  = Buffer_swap 1 2 s.
Proof.
  intros s.
  apply (move_exchange_is_swap 3 1 2
           (mkBuffer 1 (Ptr 0 0)) (mkBuffer 2 (Ptr 1 0)) s); reflexivity.
Defined.

(** X9. The copy-and-swap idiom that [swap] is written for, built from
    the members as they are ([Buffer tmp(other); this->swap(tmp);], then
    [tmp] destroyed), is a copy assignment without the defects of
    [operator=]: the destination ends with the elements of the source in
    an array of its own and its old array released, also when source and
    destination are the same buffer; and when the allocation fails the
    state is exactly what it was. *)
Theorem copy_and_swap_assigns
    (tmp this other : oid) (D B : Buffer) (ws vs : list float) (s : state) :
  objs s !! this = Some D →
  holds s D ws →
  objs s !! other = Some B →
  holds s B vs →
  objs s !! tmp = None →
  (this ≠ other → separate D B) →
  (size_ B ≤ room s →
     ∃ s' D',
       (Buffer_copy_ctor tmp other ;; Buffer_swap this tmp ;; Buffer_dtor tmp) s
       = Ok () s'
       ∧ objs s' !! this = Some D'
       ∧ elements D' s' = Some vs
       ∧ objs s' !! tmp = None
       ∧ (∀ l, ptr_ D = Ptr l 0 → blocks s' !! l = Some None)
       ∧ (this ≠ other → objs s' !! other = Some B ∧ elements B s' = Some vs)
       ∧ room s' = room s - size_ B + size_ D)
  ∧ (room s < size_ B →
       (Buffer_copy_ctor tmp other ;; Buffer_swap this tmp ;; Buffer_dtor tmp) s
       = Throw s).
Proof.
  intros Ht HD Ho HB Htmp Hsep.
  assert (tmp ≠ this) as Htt by (intros ->; congruence).
  assert (tmp ≠ other) as Hto by (intros ->; congruence).
  split; cycle 1.
  { intros Hr. apply bind_Throw. erewrite copy_ctor_throw by done.
    by rewrite delete_id, state_eta. }
  intros Hr.
  set (T := mkBuffer (size_ B) (Ptr (length (blocks s)) 0)).
  set (bl1 := blocks s ++ [Some (Some <$> vs)]).
  set (s1 := mkState (<[tmp := T]> (objs s)) bl1 (room s - size_ B)).
  set (s2 := mkState (<[tmp := D]> (<[this := T]> (objs s1))) bl1
                     (room s - size_ B)).
  set (s3 := mkState (delete tmp (objs s2)) (release (ptr_ D) bl1)
                     (room s - size_ B + size_ D)).
  assert (holds s2 D ws) as HD2 by (by apply holds_app).
  assert (holds s3 T vs) as HT3.
  { apply (holds_release s2 D T vs).
    - unfold T. apply holds_fresh. by eapply holds_size.
    - intros E. cbn in E. destruct (holds_live _ _ _ _ _ HD E). lia. }
  exists s3, T. split.
  { erewrite bind_Ok by (by eapply copy_ctor_spec).
    erewrite bind_Ok by (eapply swap_spec; lookup).
    eapply (dtor_spec tmp D ws s2); [unfold s2; lookup|done]. }
  split; [unfold s3, s2, s1; cbn; by rewrite lookup_delete_ne; lookup|].
  split; [by apply elements_holds|].
  split; [unfold s3; cbn; by rewrite lookup_delete_eq|].
  split.
  { intros l Hl. destruct (holds_live _ _ _ _ _ HD Hl) as [Hlt _].
    unfold s3, bl1. cbn. rewrite Hl. cbn.
    apply list_lookup_insert_eq. rewrite length_app. lia. }
  split; [|done].
  intros Hne. split.
  - unfold s3, s2, s1. cbn. rewrite lookup_delete_ne by done. lookup.
  - apply elements_holds. apply (holds_release s2 D B vs); [|by apply Hsep].
    by apply (holds_app s).
Qed.

Lemma copy_and_swap_assigns_witness :
  let s := mkState {[1 := mkBuffer 3 (Ptr 0 0)]}
                   [Some [Some f1; Some f2; Some f3]] 3 in
  ∃ s' D',
    (Buffer_copy_ctor 2 1 ;; Buffer_swap 1 2 ;; Buffer_dtor 2) s = Ok () s'
    ∧ objs s' !! 1 = Some D'
    ∧ elements D' s' = Some [f1; f2; f3]
    ∧ blocks s' !! 0 = Some None.
Proof.
  intros s.
  destruct (copy_and_swap_assigns 2 1 1 (mkBuffer 3 (Ptr 0 0))
              (mkBuffer 3 (Ptr 0 0)) [f1; f2; f3] [f1; f2; f3] s)
    as [H _].
  - reflexivity.
  - left. exists 0. repeat split; reflexivity.
  - reflexivity.
  - left. exists 0. repeat split; reflexivity.
  - reflexivity.
  - intros Hne. by destruct Hne.
  - destruct H as (s' & D' & H1 & H2 & H3 & _ & H5 & _); [cbn; lia|].
    exists s', D'. repeat split; try assumption. by apply H5.
Defined.

(** X10. Whatever calls of the members a client makes, in whatever
    order and on whatever objects: if they all return, every living
    buffer is still empty or the owner of a live array of exactly
    [size_] floats, no two buffers share an array, and so every living
    buffer can be printed. (A call that does not return is a failed
    allocation or undefined behaviour, as self copy assignment of a
    non-empty buffer.) *)
Theorem clients_keep_invariant (cs : list call) (s s' : state) :
  store_ok s →
  run_all cs s = Ok () s' →
  store_ok s'
  ∧ ∀ x b, objs s' !! x = Some b →
      ∃ vs, length vs = size_ b
            ∧ printBuffer x s' = Ok (mkReport (size_ b) (ptr_ b) vs) s'.
Proof.
  intros Hok Hrun.
  assert (store_ok s') as Hok'.
  { revert s Hok Hrun. induction cs as [|c cs IH]; intros s Hok; cbn [run_all].
    - unfold ret. by intros [= <-].
    - unfold bind at 1. destruct (run c s) as [[] s1| |] eqn:E; [|done..].
      intros Hrun. eapply IH; [|done]. by eapply store_ok_step. }
  split; [done|]. intros x b Hx.
  destruct Hok' as [Hwf _]. destruct (Hwf _ _ Hx) as [vs Hb].
  exists vs. split; [symmetry; by eapply holds_size|].
  by apply printBuffer_holds.
Qed.

Lemma clients_keep_invariant_witness :
  let cs := [Construct 1 [f1; f2]; CopyConstruct 2 1; MoveConstruct 3 1;
             CopyAssign 1 2; Swap 2 3; MoveAssign 3 3; Destroy 2] in
  let s' := mkState {[1 := mkBuffer 2 (Ptr 2 0); 3 := mkBuffer 0 nullptr]}
                    [None; Some [Some f1; Some f2]; Some [Some f1; Some f2]]
                    4 in
  run_all cs (start 8) = Ok () s' ∧ store_ok s'.
Proof.
  intros cs s'.
  assert (run_all cs (start 8) = Ok () s') as Hrun by (vm_compute; reflexivity).
  split; [exact Hrun|].
  exact (proj1 (clients_keep_invariant cs (start 8) s' (store_ok_start 8) Hrun)).
Defined.

(** X11. A client that constructs only in storage holding no living
    buffer and move-assigns only onto buffers whose pointer is null
    leaks nothing: if its calls all return, every live array belongs to
    a living buffer, so once all buffers are destroyed no array is live.
    Move assignment onto an owning buffer is the one member call that
    loses an array. *)
Theorem clients_without_leak (cs : list call) (s s' : state) :
  store_ok s →
  no_leak s →
  leak_safe_all cs s →
  run_all cs s = Ok () s' →
  no_leak s'
  ∧ (objs s' = ∅ → ∀ l a, blocks s' !! l ≠ Some (Some a)).
Proof.
  intros Hok Hnl Hsafe Hrun.
  assert (no_leak s') as Hnl'.
  { revert s Hok Hnl Hsafe Hrun.
    induction cs as [|c cs IH]; intros s Hok Hnl; cbn [run_all leak_safe_all].
    - unfold ret. by intros _ [= <-].
    - intros [Hc Hrest]. unfold bind at 1.
      destruct (run c s) as [[] s1| |] eqn:E; [|done..].
      intros Hrun. eapply (IH s1); [| |by apply Hrest|done].
      + by eapply store_ok_step.
      + by eapply no_leak_step. }
  split; [done|]. intros Hempty l a Hl.
  destruct (Hnl' _ _ Hl) as (x & b & Hx & _).
  by rewrite Hempty, lookup_empty in Hx.
Qed.

Lemma no_leak_start r : no_leak (start r).
Proof. intros l a Hl. cbn in Hl. by rewrite lookup_nil in Hl. Qed.

Lemma clients_without_leak_witness :
  let cs := [Construct 1 [f1; f2]; CopyConstruct 2 1; MoveConstruct 3 1;
             MoveAssign 1 3; Destroy 3; Destroy 2; Destroy 1] in
  let s' := mkState ∅ [None; None] 4 in
  run_all cs (start 4) = Ok () s' ∧ no_leak s'.
Proof.
  intros cs s'.
  assert (run_all cs (start 4) = Ok () s') as Hrun by (vm_compute; reflexivity).
  split; [exact Hrun|].
  refine (proj1 (clients_without_leak cs (start 4) s'
                   (store_ok_start 4) (no_leak_start 4) _ Hrun)).
  unfold cs.
  repeat (cbn [leak_safe_all leak_safe]; split;
          [first [exact I | reflexivity
                 | intros d E; vm_compute in E; by injection E as <-]
          |intros s1 E; vm_compute in E; injection E as <-]).
  exact I.
Defined.

Section scenario.
Implicit Types (s : state) (b d : Buffer) (vs : list float).

Lemma printLocation_Ok x b s : objs s !! x = Some b → printLocation x s = Ok () s.
Proof. unfold printLocation, bind, get. by intros ->. Qed.

Lemma copy_assign_self_empty_spec this b s :
  objs s !! this = Some b →
  holds s b [] →
  Buffer_copy_assign this this s
  = Ok () (mkState (<[this := mkBuffer 0 (Ptr (length (blocks s)) 0)]> (objs s))
                   (release (ptr_ b) (blocks s) ++ [Some []])
                   (room s)).
Proof.
  intros Ht Hb. apply holds_size in Hb as Hn. cbn in Hn.
  unfold Buffer_copy_assign. step.
  erewrite bind_Ok by (by eapply delete_holds). step.
  erewrite bind_Ok by (apply new_array_Ok; cbn; lia).
  do 3 step. rewrite !insert_insert_eq.
  erewrite (copy_from_self this _ (release (ptr_ b) (blocks s)));
    [|lookup|done|done].
  cbn [size_]. rewrite decide_True by done.
  rewrite release_length, Hn. cbn. do 2 f_equal. lia.
Qed.
End scenario.

(** X12. [main], run where the free store can serve six floats: the four
    calls of [printBuffer] write size 3 and the elements 1 2 3 each
    time, for [b1] at one address and for the copy [b2] at another; on
    return both arrays have been released, no object is left and the
    free store has the room it started with. Where it cannot serve even
    three floats, the first construction throws and nothing was done. *)
Theorem main_runs (r : nat) :
  (6 ≤ r →
     main (start r)
     = Ok (0%Z, [mkReport 3 (Ptr 0 0) [f1; f2; f3];
                 mkReport 3 (Ptr 0 0) [f1; f2; f3];
                 mkReport 3 (Ptr 1 0) [f1; f2; f3];
                 mkReport 3 (Ptr 0 0) [f1; f2; f3]])
          (mkState ∅ [None; None] r))
  ∧ (r < 3 → main (start r) = Throw (start r)).
Proof.
  split; intros Hr; unfold main; cycle 1.
  { apply bind_Throw. by rewrite ctor_throw by (cbn; lia). }
  set (B1 := mkBuffer 3 (Ptr 0 0)). set (B2 := mkBuffer 3 (Ptr 1 0)).
  set (a := Some <$> [f1; f2; f3]).
  set (s1 := mkState (<[1 := B1]> ∅) [Some a] (r - 3)).
  set (s2 := mkState (<[2 := B2]> (<[1 := B1]> ∅)) [Some a; Some a] (r - 3 - 3)).
  assert (holds s1 B1 [f1; f2; f3]) as H11 by (left; by exists 0).
  assert (holds s2 B1 [f1; f2; f3]) as H21 by (left; by exists 0).
  assert (holds s2 B2 [f1; f2; f3]) as H22 by (left; by exists 1).
  erewrite bind_Ok with (s' := s1) by (apply ctor_spec; cbn; lia).
  erewrite bind_Ok by (by apply (printBuffer_holds 1 s1 B1)).
  erewrite bind_Ok by (by apply (printBuffer_holds 1 s1 B1)).
  erewrite bind_Ok by (by apply (printLocation_Ok 1 B1)).
  erewrite bind_Ok with (s' := s2)
    by (by apply (copy_ctor_spec 2 1 B1 [f1; f2; f3] s1); [| | |cbn; lia]).
  erewrite bind_Ok by (by apply (printBuffer_holds 2 s2 B2)).
  erewrite bind_Ok by (by apply (printBuffer_holds 1 s2 B1)).
  erewrite bind_Ok by (by apply (dtor_spec 2 B2 [f1; f2; f3] s2)).
  erewrite bind_Ok; cycle 1.
  { apply (dtor_spec 1 B1 [f1; f2; f3]); [done|]. left. by exists 0. }
  unfold ret. cbn. do 2 f_equal. lia.
Qed.

Lemma main_runs_witness :
  main (start 6)
  = Ok (0%Z, [mkReport 3 (Ptr 0 0) [f1; f2; f3];
              mkReport 3 (Ptr 0 0) [f1; f2; f3];
              mkReport 3 (Ptr 1 0) [f1; f2; f3];
              mkReport 3 (Ptr 0 0) [f1; f2; f3]])
       (mkState ∅ [None; None] 6)
  ∧ main (start 2) = Throw (start 2).
Proof.
  destruct (main_runs 6) as [H _]. destruct (main_runs 2) as [_ H'].
  split; [apply H|apply H']; lia.
Defined.

(** X13. A buffer constructed and then destroyed gives everything back:
    the objects are as before, the free store has the room it had, and
    the array allocated in between is released. *)
Theorem construct_destroy_round_trip
    (this : oid) (values : list float) (s : state) :
  objs s !! this = None →
  length values ≤ room s →
  (Buffer_ctor this values ;; Buffer_dtor this) s
  = Ok () (mkState (objs s) (blocks s ++ [None]) (room s)).
Proof.
  intros Ht Hr. erewrite bind_Ok by (by apply ctor_spec).
  erewrite (dtor_spec this _ values); [|lookup|by apply holds_fresh].
  cbn. rewrite fresh_fill, delete_insert_id by done.
  do 2 f_equal. lia.
Qed.

Lemma construct_destroy_round_trip_witness :
  (Buffer_ctor 1 [f1; f2; f3] ;; Buffer_dtor 1) (start 3)
  = Ok () (mkState ∅ [None] 3).
Proof.
  apply (construct_destroy_round_trip 1 [f1; f2; f3] (start 3));
    [reflexivity|cbn; lia].
Defined.

(** X14. Self copy assignment is harmless exactly where there is nothing
    to lose: for a buffer with no elements (moved-from, or constructed
    from the empty list) [b = b] returns, [b] still has size 0 and no
    elements, and its pointer is now that of a new array of no
    elements, even where it was null before. *)
Theorem self_copy_assign_empty_harmless (this : oid) (b : Buffer) (s : state) :
  objs s !! this = Some b →
  holds s b [] →
  ∃ s' b',
    Buffer_copy_assign this this s = Ok () s'
    ∧ objs s' !! this = Some b'
    ∧ size_ b' = 0
    ∧ elements b' s' = Some []
    ∧ ptr_ b' ≠ nullptr
    ∧ room s' = room s.
Proof.
  intros Ht Hb. do 2 eexists.
  split; [by apply copy_assign_self_empty_spec|].
  split; [by lookup|]. by repeat split.
Qed.

Lemma self_copy_assign_empty_harmless_witness :
  let s := mkState {[1 := mkBuffer 0 nullptr]} [] 0 in
  ∃ s' b',
    Buffer_copy_assign 1 1 s = Ok () s'
    ∧ objs s' !! 1 = Some b'
    ∧ size_ b' = 0
    ∧ ptr_ b' ≠ nullptr.
Proof.
  intros s.
  destruct (self_copy_assign_empty_harmless 1 (mkBuffer 0 nullptr) s)
    as (s' & b' & H1 & H2 & H3 & _ & H5 & _).
  - reflexivity.
  - right. repeat split; reflexivity.
  - exists s', b'. repeat split; assumption.
Defined.

(** X16. Where it returns, copy assignment between two buffers is the
    destruction of the destination followed by copy construction in its
    storage: the two end in the same state. (Where the allocation fails
    they differ: after the destructor there is no object left to hold a
    dangling pointer.) *)
Theorem copy_assign_is_destroy_then_copy
    (this other : oid) (D B : Buffer) (ws vs : list float) (s : state) :
  objs s !! this = Some D →
  holds s D ws →
  objs s !! other = Some B →
  holds s B vs →
  this ≠ other →
  separate D B →
  size_ B ≤ room s + size_ D →
  Buffer_copy_assign this other s
  = (Buffer_dtor this ;; Buffer_copy_ctor this other) s.
Proof.
  intros Ht HD Ho HB Hne Hsep Hr.
  erewrite copy_assign_spec by done.
  erewrite bind_Ok by (by eapply dtor_spec).
  erewrite (copy_ctor_spec this other B vs); cycle 1.
  - cbn. by rewrite lookup_delete_ne.
  - by apply holds_release.
  - done.
  - done.
  - cbn. by rewrite release_length, insert_delete_eq.
Qed.

Lemma copy_assign_is_destroy_then_copy_witness :
  let s := mkState {[1 := mkBuffer 1 (Ptr 0 0); 2 := mkBuffer 2 (Ptr 1 0)]}
                   [Some [Some f1]; Some [Some f2; Some f3]] 1 in
  Buffer_copy_assign 1 2 s = (Buffer_dtor 1 ;; Buffer_copy_ctor 1 2) s.
Proof.
  intros s.
  apply (copy_assign_is_destroy_then_copy 1 2
           (mkBuffer 1 (Ptr 0 0)) (mkBuffer 2 (Ptr 1 0)) [f1] [f2; f3] s).
  - reflexivity.
  - left. exists 0. repeat split; reflexivity.
  - reflexivity.
  - left. exists 1. repeat split; reflexivity.
  - lia.
  - intros [=].
  - cbn. lia.
Defined.
